(** * Faucet front end: a model of the React component [App]

    The component keeps its display state in [useState] hooks, reads the
    chain through a public client, and submits [mint] and [claim]
    transactions through a wallet client.  This file embeds the functions
    of [App] ([fetchTokenDecimals], [fetchBalance], the debounced
    [useEffect], [validateInputs], [handleMint], [handleClaim]) and proves
    properties of them.

    The JavaScript built-ins and the viem helpers the component calls are
    kept in the modules [Js] and [Viem]; the parts of them that depend on
    floating point or on hashing, and whether the browser injects a wallet
    provider, are parameters of the model. *)

From Stdlib Require Import String Ascii List ZArith NArith QArith Bool Arith Lia.
From Stdlib Require Import DecimalString.
Import ListNotations.

Local Close Scope Q_scope.
Local Open Scope string_scope.

(* ------------------------------------------------------------------ *)
(** ** JavaScript built-ins *)

Module Js.

(** JavaScript numbers, as far as the component looks at them: a finite
    double is a rational. *)
Inductive number :=
| NaN
| NegInfinity
| Finite (q : Q)
| PosInfinity.

(** [x <= 0] on numbers; every comparison with [NaN] is false. *)
Definition le_zero (x : number) : bool :=
  match x with
  | NaN => false
  | NegInfinity => true
  | Finite q => Qle_bool q 0
  | PosInfinity => false
  end.

(** A string is falsy exactly when it is empty. *)
Definition truthy (s : string) : bool :=
  match s with
  | EmptyString => false
  | String _ _ => true
  end.

Definition is_upper (c : ascii) : bool :=
  let n := nat_of_ascii c in (65 <=? n)%nat && (n <=? 90)%nat.

Definition is_lower (c : ascii) : bool :=
  let n := nat_of_ascii c in (97 <=? n)%nat && (n <=? 122)%nat.

Definition is_digit (c : ascii) : bool :=
  let n := nat_of_ascii c in (48 <=? n)%nat && (n <=? 57)%nat.

(** [a-fA-F0-9] *)
Definition is_hex (c : ascii) : bool :=
  let n := nat_of_ascii c in
  is_digit c
  || ((97 <=? n)%nat && (n <=? 102)%nat)
  || ((65 <=? n)%nat && (n <=? 70)%nat).

Definition lower_char (c : ascii) : ascii :=
  if is_upper c then ascii_of_nat (nat_of_ascii c + 32) else c.

(** [String.prototype.toLowerCase] on the ASCII range (the strings the
    component lowers are addresses). *)
Fixpoint toLowerCase (s : string) : string :=
  match s with
  | EmptyString => EmptyString
  | String c r => String (lower_char c) (toLowerCase r)
  end.

Fixpoint all_chars (p : ascii -> bool) (s : string) : bool :=
  match s with
  | EmptyString => true
  | String c r => p c && all_chars p r
  end.

Fixpoint repeat_char (c : ascii) (n : nat) : string :=
  match n with
  | O => EmptyString
  | S k => String c (repeat_char c k)
  end.

(** [s.padEnd(n, c)] and [s.padStart(n, c)] for a one-character pad. *)
Definition padEnd (s : string) (n : nat) (c : ascii) : string :=
  s ++ repeat_char c (n - String.length s).

Definition padStart (s : string) (n : nat) (c : ascii) : string :=
  repeat_char c (n - String.length s) ++ s.

(** [s.slice(i, j)] and [s.slice(i)] for [0 <= i <= j]. *)
Definition slice (i j : nat) (s : string) : string := substring i (j - i) s.

Definition slice_from (i : nat) (s : string) : string :=
  substring i (String.length s - i) s.

(** [s.split(c)] for a one-character separator. *)
Fixpoint split (c : ascii) (s : string) : list string :=
  match s with
  | EmptyString => [EmptyString]
  | String d r =>
      if Ascii.eqb d c then EmptyString :: split c r
      else match split c r with
           | [] => [String d EmptyString]
           | h :: t => String d h :: t
           end
  end.

(** [s.replace(/(0+)$/, '')]: drop the trailing zeros. *)
Fixpoint trim_trailing_zeros (s : string) : string :=
  match s with
  | EmptyString => EmptyString
  | String c r =>
      match trim_trailing_zeros r with
      | EmptyString => if Ascii.eqb c "0" then EmptyString else String c EmptyString
      | r' => String c r'
      end
  end.

Definition digit_value (c : ascii) : N := N.of_nat (nat_of_ascii c - 48).

Fixpoint digits_value (acc : N) (s : string) : N :=
  match s with
  | EmptyString => acc
  | String c r => digits_value (10 * acc + digit_value c) r
  end.

(** [BigInt(s)] on the strings the model builds: the empty string is
    [0n], an optional sign followed by decimal digits is that integer;
    anything else is a [SyntaxError], here [None]. *)
Definition BigInt (s : string) : option Z :=
  match s with
  | EmptyString => Some 0%Z
  | String c r =>
      if Ascii.eqb c "-" then
        if truthy r && all_chars is_digit r
        then Some (- Z.of_N (digits_value 0 r))%Z else None
      else if Ascii.eqb c "+" then
        if truthy r && all_chars is_digit r
        then Some (Z.of_N (digits_value 0 r)) else None
      else
        if all_chars is_digit s then Some (Z.of_N (digits_value 0 s)) else None
  end.

(** The decimal digits of a natural number, as [`${n}`] prints a
    non-negative bigint. *)
Definition show_N (n : N) : string := NilZero.string_of_uint (N.to_uint n).

(** [s.slice(-n)]: the last [n] characters. *)
Definition slice_last (n : nat) (s : string) : string :=
  substring (String.length s - n) n s.

(** [v.toString()] of a bigint. *)
Definition show_Z (v : Z) : string :=
  match v with
  | Zneg q => "-" ++ show_N (Npos q)
  | _ => show_N (Z.to_N v)
  end.

End Js.

(* ------------------------------------------------------------------ *)
(** ** viem helpers *)

Module Viem.

Definition zeroAddress : string := "0x0000000000000000000000000000000000000000".

(** [/^0x[a-fA-F0-9]{40}$/] *)
Definition addressRegex (s : string) : bool :=
  match s with
  | String "0" (String "x" r) =>
      (String.length r =? 40)%nat && Js.all_chars Js.is_hex r
  | _ => false
  end.

(** The regular expression of [parseUnits]: an optional minus sign,
    decimal digits, an optional dot, decimal digits. *)
Fixpoint digits_then (k : string -> bool) (s : string) : bool :=
  match s with
  | EmptyString => k EmptyString
  | String c r => if Js.is_digit c then digits_then k r else k s
  end.

Definition decimalRegex (s : string) : bool :=
  let unsigned :=
    match s with
    | String "-" r => r
    | _ => s
    end in
  digits_then
    (fun rest =>
       match rest with
       | String "." r => Js.all_chars Js.is_digit r
       | _ => Js.all_chars Js.is_digit rest
       end)
    unsigned.

Section Helpers.

(** The keccak-based checksum test that [isAddress] applies to an
    address with an upper-case letter ([checksumAddress(a) === a]). *)
Variable checksumOk : string -> bool.

(** [Math.round(Number(s))] on a decimal literal; [None] is [NaN]. *)
Variable roundNumber : string -> option N.

(** [isAddress(address)] with the default options. *)
Definition isAddress (address : string) : bool :=
  if negb (addressRegex address) then false
  else if String.eqb (Js.toLowerCase address) address then true
  else checksumOk address.

Definition show_rounded (r : option N) : string :=
  match r with
  | Some n => Js.show_N n
  | None => "NaN"
  end.

Definition inc_digits (s : string) : option string :=
  match Js.BigInt s with
  | Some z => Some (Js.show_N (Z.to_N (z + 1)))
  | None => None
  end.

(** [parseUnits(value, decimals)]; [None] when it throws. *)
Definition parseUnits (value : string) (decimals : nat) : option Z :=
  if negb (decimalRegex value) then None
  else
    let parts := Js.split "." value in
    let integer0 := hd EmptyString parts in
    let fraction0 :=
      match parts with
      | _ :: f :: _ => f
      | _ => "0"
      end in
    let negative := match integer0 with String "-" _ => true | _ => false end in
    let integer1 := if negative then Js.slice_from 1 integer0 else integer0 in
    let fraction1 := Js.trim_trailing_zeros fraction0 in
    let rounded : option (string * string) :=
      if (decimals =? 0)%nat then
        if match roundNumber ("." ++ fraction1) with
           | Some 1%N => true
           | _ => false
           end
        then match inc_digits integer1 with
             | Some i => Some (i, EmptyString)
             | None => None
             end
        else Some (integer1, EmptyString)
      else if (decimals <? String.length fraction1)%nat then
        let left := Js.slice 0 (decimals - 1) fraction1 in
        let unit := Js.slice (decimals - 1) decimals fraction1 in
        let right := Js.slice_from decimals fraction1 in
        let r := roundNumber (unit ++ "." ++ right) in
        match
          (if match r with Some n => (9 <? n)%N | None => false end
           then match inc_digits left with
                | Some l => Some (Js.padStart (l ++ "0") (String.length left + 1) "0")
                | None => None
                end
           else Some (left ++ show_rounded r))
        with
        | None => None
        | Some fraction2 =>
            if (decimals <? String.length fraction2)%nat then
              match inc_digits integer1 with
              | Some i => Some (i, Js.slice 0 decimals (Js.slice_from 1 fraction2))
              | None => None
              end
            else Some (integer1, Js.slice 0 decimals fraction2)
        end
      else Some (integer1, Js.padEnd fraction1 decimals "0") in
    match rounded with
    | None => None
    | Some (integer, fraction) =>
        Js.BigInt ((if negative then "-" else EmptyString) ++ integer ++ fraction)
    end.

(** [parseGwei(value)] is [parseUnits(value, 9)]. *)
Definition parseGwei (value : string) : option Z := parseUnits value 9.

End Helpers.

End Viem.

(* ------------------------------------------------------------------ *)
(** ** The component *)

Module App.

Definition faucetAddress : string := "0x8A3832136896229C281Dd0760FEF8E4CE4718587".

(** *** Display state: the [useState] hooks of [App], and the account
    address that [useAccount] reports ([None] when no wallet is
    connected). *)
Record State := mkState {
  connectedAddress : option string;
  tokenAddress : string;
  receiverAddress : string;
  amount : string;
  isMinting : bool;
  isClaiming : bool;
  error : string;
  success : string;
  txHash : string;
  txType : string;
  balance : option N;            (* [null] or a bigint *)
  isLoadingBalance : bool;
  tokenDecimals : nat
}.

Definition initialState (account : option string) : State :=
  mkState account EmptyString EmptyString EmptyString false false
    EmptyString EmptyString EmptyString EmptyString None false 18.

Definition with_isMinting (v : bool) (s : State) : State :=
  mkState (connectedAddress s) (tokenAddress s) (receiverAddress s) (amount s)
    v (isClaiming s) (error s) (success s) (txHash s) (txType s)
    (balance s) (isLoadingBalance s) (tokenDecimals s).

Definition with_isClaiming (v : bool) (s : State) : State :=
  mkState (connectedAddress s) (tokenAddress s) (receiverAddress s) (amount s)
    (isMinting s) v (error s) (success s) (txHash s) (txType s)
    (balance s) (isLoadingBalance s) (tokenDecimals s).

Definition with_error (v : string) (s : State) : State :=
  mkState (connectedAddress s) (tokenAddress s) (receiverAddress s) (amount s)
    (isMinting s) (isClaiming s) v (success s) (txHash s) (txType s)
    (balance s) (isLoadingBalance s) (tokenDecimals s).

Definition with_success (v : string) (s : State) : State :=
  mkState (connectedAddress s) (tokenAddress s) (receiverAddress s) (amount s)
    (isMinting s) (isClaiming s) (error s) v (txHash s) (txType s)
    (balance s) (isLoadingBalance s) (tokenDecimals s).

Definition with_txHash (v : string) (s : State) : State :=
  mkState (connectedAddress s) (tokenAddress s) (receiverAddress s) (amount s)
    (isMinting s) (isClaiming s) (error s) (success s) v (txType s)
    (balance s) (isLoadingBalance s) (tokenDecimals s).

Definition with_txType (v : string) (s : State) : State :=
  mkState (connectedAddress s) (tokenAddress s) (receiverAddress s) (amount s)
    (isMinting s) (isClaiming s) (error s) (success s) (txHash s) v
    (balance s) (isLoadingBalance s) (tokenDecimals s).

Definition with_balance (v : option N) (s : State) : State :=
  mkState (connectedAddress s) (tokenAddress s) (receiverAddress s) (amount s)
    (isMinting s) (isClaiming s) (error s) (success s) (txHash s) (txType s)
    v (isLoadingBalance s) (tokenDecimals s).

Definition with_isLoadingBalance (v : bool) (s : State) : State :=
  mkState (connectedAddress s) (tokenAddress s) (receiverAddress s) (amount s)
    (isMinting s) (isClaiming s) (error s) (success s) (txHash s) (txType s)
    (balance s) v (tokenDecimals s).

Definition with_tokenDecimals (v : nat) (s : State) : State :=
  mkState (connectedAddress s) (tokenAddress s) (receiverAddress s) (amount s)
    (isMinting s) (isClaiming s) (error s) (success s) (txHash s) (txType s)
    (balance s) (isLoadingBalance s) v.

(** *** Requests to the chain clients *)

(** The two interface descriptions the component imports
    ([json/ERC20.json], [json/Faucet.json]); the component only passes
    them on. *)
Inductive Abi := ERC20ABI | FaucetABI.

Record ReadRequest := mkRead {
  read_address : string;
  read_abi : Abi;
  read_functionName : string;
  read_args : list string
}.

Record WriteRequest := mkWrite {
  write_address : string;
  write_abi : Abi;
  write_functionName : string;
  write_token : string;
  write_receiver : string;
  write_amount : Z;
  write_maxFeePerGas : option Z;
  write_account : option string
}.

Inductive Call :=
| ReadContract (r : ReadRequest)
| GetBalance (address : string)
| WriteContract (r : WriteRequest)
| WaitForTransactionReceipt (hash : string).

(** What the component does that can be seen from outside: calls of the
    state setters, console output, and calls to the chain clients. *)
Inductive Event :=
| SetIsMinting (v : bool)
| SetIsClaiming (v : bool)
| SetError (v : string)
| SetSuccess (v : string)
| SetTxHash (v : string)
| SetTxType (v : string)
| SetBalance (v : option N)
| SetIsLoadingBalance (v : bool)
| SetTokenDecimals (v : nat)
| ConsoleLog (label : string)
| ConsoleWarn (label : string)
| ConsoleError (label : string)
| Net (c : Call).

(** The calls to the chain clients in a trace, in order. *)
Fixpoint net_calls (t : list Event) : list Call :=
  match t with
  | [] => []
  | Net c :: r => c :: net_calls r
  | _ :: r => net_calls r
  end.

(** *** The chain, as the component meets it.  Every answer may depend
    on the request and on how many calls were made before it; [None]
    (or [false] for the receipt) is a call that throws.  The values read
    are unsigned integers of the contracts' interfaces ([uint8] for
    [decimals], [uint256] for the balances). *)
Record Chain := mkChain {
  readContract : nat -> ReadRequest -> option N;
  getBalance : nat -> string -> option N;
  writeContract : nat -> WriteRequest -> option string;
  waitForTransactionReceipt : nat -> string -> bool
}.

(** The JavaScript and viem primitives that are parameters of the model. *)
Record Runtime := mkRuntime {
  checksumOk : string -> bool;          (* [checksumAddress(a) === a] *)
  roundNumber : string -> option N;     (* [Math.round(Number(s))] *)
  isNaN : string -> bool;               (* [isNaN(s)] on a string *)
  parseFloat : string -> Js.number;     (* [parseFloat(s)] *)
  ethereum : bool                       (* [window.ethereum] is injected *)
}.

(** *** Asynchronous code: state, a count of the chain calls made, a
    trace, and exceptions. *)
Inductive Exception :=
| ReadFailed (r : ReadRequest)
| BalanceFailed (address : string)
| WriteFailed (r : WriteRequest)
| ReceiptFailed (hash : string)
| InvalidDecimalNumber (value : string)
| ProviderMissing.                 (* the [TypeError] of a transport without provider *)

Inductive Outcome (A : Type) :=
| Return (a : A)
| Throw (e : Exception).
Arguments Return {A} a.
Arguments Throw {A} e.

Record World := mkWorld {
  ui : State;
  calls : nat
}.

Definition M (A : Type) : Type := World -> Outcome A * World * list Event.

Definition ret {A} (a : A) : M A := fun w => (Return a, w, []).

Definition throw {A} (e : Exception) : M A := fun w => (Throw e, w, []).

Definition bind {A B} (m : M A) (f : A -> M B) : M B :=
  fun w =>
    match m w with
    | (Return a, w1, t1) =>
        let '(r, w2, t2) := f a w1 in (r, w2, (t1 ++ t2)%list)
    | (Throw e, w1, t1) => (Throw e, w1, t1)
    end.

(** [try { body } catch (e) { handler e }] *)
Definition try_catch {A} (body : M A) (handler : Exception -> M A) : M A :=
  fun w =>
    match body w with
    | (Throw e, w1, t1) =>
        let '(r, w2, t2) := handler e w1 in (r, w2, (t1 ++ t2)%list)
    | done => done
    end.

(** [try { body } finally { final }] *)
Definition try_finally {A} (body : M A) (final : M unit) : M A :=
  fun w =>
    let '(r, w1, t1) := body w in
    match final w1 with
    | (Return _, w2, t2) => (r, w2, (t1 ++ t2)%list)
    | (Throw e, w2, t2) => (Throw e, w2, (t1 ++ t2)%list)
    end.

Declare Scope js_scope.
Delimit Scope js_scope with js.
Notation "x <- m ;; k" := (bind m (fun x => k))
  (at level 61, m at next level, right associativity) : js_scope.
Notation "m ;; k" := (bind m (fun _ => k))
  (at level 61, right associativity) : js_scope.
Local Open Scope js_scope.

Definition emit (e : Event) : M unit := fun w => (Return tt, w, [e]).

Definition set_state (e : Event) (f : State -> State) : M unit :=
  fun w => (Return tt, mkWorld (f (ui w)) (calls w), [e]).

Definition setIsMinting v := set_state (SetIsMinting v) (with_isMinting v).
Definition setIsClaiming v := set_state (SetIsClaiming v) (with_isClaiming v).
Definition setError v := set_state (SetError v) (with_error v).
Definition setSuccess v := set_state (SetSuccess v) (with_success v).
Definition setTxHash v := set_state (SetTxHash v) (with_txHash v).
Definition setTxType v := set_state (SetTxType v) (with_txType v).
Definition setBalance v := set_state (SetBalance v) (with_balance v).
Definition setIsLoadingBalance v :=
  set_state (SetIsLoadingBalance v) (with_isLoadingBalance v).
Definition setTokenDecimals v :=
  set_state (SetTokenDecimals v) (with_tokenDecimals v).

(** A call to a chain client: logged, counted, answered by the chain. *)
Definition call {A} (c : Call) (answer : nat -> option A) (e : Exception) : M A :=
  fun w =>
    let w' := mkWorld (ui w) (S (calls w)) in
    match answer (calls w) with
    | Some a => (Return a, w', [Net c])
    | None => (Throw e, w', [Net c])
    end.

(** A helper that throws when it returns [None]. *)
Definition or_throw {A} (o : option A) (e : Exception) : M A :=
  match o with
  | Some a => ret a
  | None => throw e
  end.

Definition run {A} (m : M A) (w : World) : Outcome A := fst (fst (m w)).
Definition final {A} (m : M A) (w : World) : State := ui (snd (fst (m w))).
Definition trace {A} (m : M A) (w : World) : list Event := snd (m w).

(** Objects are truthy. *)
Inductive Client := PublicClient | WalletClient.

Definition client_truthy (c : Client) : bool := true.

(** [const publicClient = createPublicClient(...)] *)
Definition publicClient : Client := PublicClient.


Section Component.

Variable rt : Runtime.
Variable chain : Chain.

(** [createWalletClient({ chain, transport: custom(window.ethereum) })]:
    the constructor builds the transport from the injected provider, and
    throws a [TypeError] when the browser has injected none. *)
Definition createWalletClient : M Client :=
  if ethereum rt then ret WalletClient else throw ProviderMissing.

Definition isAddress : string -> bool := Viem.isAddress (checksumOk rt).
Definition parseUnits : string -> nat -> option Z := Viem.parseUnits (roundNumber rt).
Definition parseGwei : string -> option Z := Viem.parseGwei (roundNumber rt).

(** [s.toLowerCase() === zeroAddress.toLowerCase()] *)
Definition is_zero (s : string) : bool :=
  String.eqb (Js.toLowerCase s) (Js.toLowerCase Viem.zeroAddress).

(** [const isZeroAddress = tokenAddress && isAddress(tokenAddress) && ...] *)
Definition isZeroAddress (p : State) : bool :=
  Js.truthy (tokenAddress p) && isAddress (tokenAddress p) && is_zero (tokenAddress p).

Definition public_readContract (r : ReadRequest) : M N :=
  call (ReadContract r) (fun n => readContract chain n r) (ReadFailed r).

Definition public_getBalance (address : string) : M N :=
  call (GetBalance address) (fun n => getBalance chain n address) (BalanceFailed address).

Definition wallet_writeContract (r : WriteRequest) : M string :=
  call (WriteContract r) (fun n => writeContract chain n r) (WriteFailed r).

Definition public_waitForTransactionReceipt (hash : string) : M unit :=
  call (WaitForTransactionReceipt hash)
    (fun n => if waitForTransactionReceipt chain n hash then Some tt else None)
    (ReceiptFailed hash).

Definition fetchTokenDecimals (tokenAddr : string) : M nat :=
  if negb (client_truthy publicClient) || negb (Js.truthy tokenAddr)
     || negb (isAddress tokenAddr)
  then setTokenDecimals 18 ;; ret 18%nat
  else if is_zero tokenAddr
  then setTokenDecimals 18 ;; ret 18%nat
  else
    try_catch
      (decimals <- public_readContract (mkRead tokenAddr ERC20ABI "decimals" []) ;;
       let decimalsNum := N.to_nat decimals in
       setTokenDecimals decimalsNum ;;
       ret decimalsNum)
      (fun e =>
         emit (ConsoleWarn "Failed to fetch token decimals, using default 18:") ;;
         setTokenDecimals 18 ;;
         ret 18%nat).

Definition fetchBalance (tokenAddr : string) : M unit :=
  if negb (client_truthy publicClient) then ret tt
  else if negb (Js.truthy tokenAddr) || negb (isAddress tokenAddr)
  then setBalance None ;; setIsLoadingBalance false ;; ret tt
  else
    setIsLoadingBalance true ;;
    try_finally
      (try_catch
         (if is_zero tokenAddr
          then
            ethBalance <- public_getBalance faucetAddress ;;
            setBalance (Some ethBalance) ;;
            setTokenDecimals 18
          else
            decimals <- fetchTokenDecimals tokenAddr ;;
            tokenBalance <-
              public_readContract
                (mkRead faucetAddress FaucetABI "getTokenBalance"
                   [tokenAddr; faucetAddress]) ;;
            setBalance (Some tokenBalance))
         (fun e =>
            emit (ConsoleError "Failed to fetch balance:") ;;
            setBalance None))
      (setIsLoadingBalance false).

Definition amount_rejected (a : string) : bool :=
  negb (Js.truthy a) || isNaN rt a || Js.le_zero (parseFloat rt a).

(** [validateInputs] of the render whose state is [p]. *)
Definition validateInputs (p : State) : M bool :=
  if negb (Js.truthy (tokenAddress p)) || negb (isAddress (tokenAddress p))
  then setError "请输入有效的代币地址" ;; ret false
  else if negb (Js.truthy (receiverAddress p)) || negb (isAddress (receiverAddress p))
  then setError "请输入有效的接收地址" ;; ret false
  else if amount_rejected (amount p)
  then setError "请输入有效的数量" ;; ret false
  else
    walletClient <- createWalletClient ;;
    if negb (client_truthy walletClient)
    then setError "请先连接钱包" ;; ret false
    else setError EmptyString ;; ret true.

(** [handleMint] of the render whose state is [p]. *)
Definition handleMint (p : State) : M unit :=
  setSuccess EmptyString ;;
  setError EmptyString ;;
  setTxHash EmptyString ;;
  setTxType EmptyString ;;
  ok <- validateInputs p ;;
  if negb ok then ret tt
  else
    setIsMinting true ;;
    try_finally
      (try_catch
         (let decimals := if isZeroAddress p then 18%nat else tokenDecimals p in
          amountIn <-
            or_throw (parseUnits (amount p) decimals)
              (InvalidDecimalNumber (amount p)) ;;
          walletClient <- createWalletClient ;;
          maxFeePerGas <- or_throw (parseGwei "50") (InvalidDecimalNumber "50") ;;
          hash <-
            wallet_writeContract
              (mkWrite faucetAddress FaucetABI "mint"
                 (tokenAddress p) (receiverAddress p) amountIn
                 (Some maxFeePerGas) (connectedAddress p)) ;;
          setTxHash hash ;;
          setTxType "mint" ;;
          setSuccess "Mint成功！" ;;
          emit (ConsoleLog "mint:") ;;
          if Js.truthy hash && client_truthy publicClient
          then
            public_waitForTransactionReceipt hash ;;
            fetchBalance (tokenAddress p)
          else ret tt)
         (fun e =>
            setError "Transaction fail" ;;
            emit (ConsoleError "Mint fail:")))
      (setIsMinting false).

(** [handleClaim] of the render whose state is [p]. *)
Definition handleClaim (p : State) : M unit :=
  setSuccess EmptyString ;;
  setError EmptyString ;;
  setTxHash EmptyString ;;
  setTxType EmptyString ;;
  ok <- validateInputs p ;;
  if negb ok then ret tt
  else
    setIsClaiming true ;;
    try_finally
      (try_catch
         (let decimals := if isZeroAddress p then 18%nat else tokenDecimals p in
          amountInWei <-
            or_throw (parseUnits (amount p) decimals)
              (InvalidDecimalNumber (amount p)) ;;
          walletClient <- createWalletClient ;;
          hash <-
            wallet_writeContract
              (mkWrite faucetAddress FaucetABI "claim"
                 (tokenAddress p) (receiverAddress p) amountInWei
                 None (connectedAddress p)) ;;
          setTxHash hash ;;
          setTxType "claim" ;;
          setSuccess "Claim成功！" ;;
          emit (ConsoleLog "claim:") ;;
          if Js.truthy hash && client_truthy publicClient
          then
            public_waitForTransactionReceipt hash ;;
            fetchBalance (tokenAddress p)
          else ret tt)
         (fun e =>
            setError "Transaction fail" ;;
            emit (ConsoleError "Claim fail:")))
      (setIsClaiming false).

End Component.

(** *** Vocabulary of the statements below *)

(** The setter calls of a trace that clear the loading flag. *)
Fixpoint loading_cleared (t : list Event) : nat :=
  match t with
  | [] => 0
  | SetIsLoadingBalance false :: r => S (loading_cleared r)
  | _ :: r => loading_cleared r
  end.

(** The first transaction a trace submits. *)
Fixpoint submitted (t : list Event) : option WriteRequest :=
  match t with
  | [] => None
  | Net (WriteContract r) :: _ => Some r
  | _ :: r => submitted r
  end.

Definition decimalsRequest (tokenAddr : string) : ReadRequest :=
  mkRead tokenAddr ERC20ABI "decimals" [].

Definition warned (t : list Event) : Prop :=
  In (ConsoleWarn "Failed to fetch token decimals, using default 18:") t.

Definition tokenBalanceRequest (tokenAddr : string) : ReadRequest :=
  mkRead faucetAddress FaucetABI "getTokenBalance" [tokenAddr; faucetAddress].

Definition fetch_failure_logged (t : list Event) : Prop :=
  In (ConsoleError "Failed to fetch balance:") t.

Definition mintRequest (p : State) (v : Z) : WriteRequest :=
  mkWrite faucetAddress FaucetABI "mint" (tokenAddress p) (receiverAddress p) v
    (Some 50000000000%Z) (connectedAddress p).

Definition claimRequest (p : State) (v : Z) : WriteRequest :=
  mkWrite faucetAddress FaucetABI "claim" (tokenAddress p) (receiverAddress p) v
    None (connectedAddress p).

(** The state after the four clearing calls that open both handlers. *)
Definition cleared (w : World) : World :=
  mkWorld
    (with_txType EmptyString
       (with_txHash EmptyString
          (with_error EmptyString (with_success EmptyString (ui w)))))
    (calls w).

Definition clearing : list Event :=
  [SetSuccess EmptyString; SetError EmptyString;
   SetTxHash EmptyString; SetTxType EmptyString].

(** *** The helpers of the page and what it renders *)

(** [formatTxHash(hash)]; [None] is an argument that is not a string. *)
Definition formatTxHash (hash : option string) : string :=
  match hash with
  | None => EmptyString
  | Some h =>
      if negb (Js.truthy h) then EmptyString
      else if (String.length h <=? 10)%nat then h
      else Js.slice 0 6 h ++ "..." ++ Js.slice_last 4 h
  end.

Definition getExplorerUrl (hash : string) : string :=
  if negb (Js.truthy hash) then EmptyString
  else "https://sepolia.arbiscan.io/tx/" ++ hash.

Definition with_receiverAddress (v : string) (s : State) : State :=
  mkState (connectedAddress s) (tokenAddress s) v (amount s)
    (isMinting s) (isClaiming s) (error s) (success s) (txHash s) (txType s)
    (balance s) (isLoadingBalance s) (tokenDecimals s).

(** [fillConnectedAddress], as a function of the state. *)
Definition fillConnectedAddress (s : State) : State :=
  match connectedAddress s with
  | Some a => if Js.truthy a then with_receiverAddress a s else s
  | None => s
  end.

(** [disabled={isMinting || isClaiming}] of both buttons. *)
Definition buttons_disabled (s : State) : bool := isMinting s || isClaiming s.

(** The balance line under the token address. *)
Inductive BalanceView :=
| NoBalanceLine
| BalanceLoading
| BalanceValue (label amount : string)
| BalanceUnreadable.

(** The message with the link to the transaction. *)
Record SuccessPanel := mkPanel {
  panel_text : string;
  panel_href : string;
  panel_hash : string
}.

Section Page.

Variable rt : Runtime.

(** [formatUnits(balance, decimals)] of viem. *)
Variable formatUnits : N -> nat -> string.

Definition balanceDisplay (s : State) : BalanceView :=
  if Js.truthy (tokenAddress s) && isAddress rt (tokenAddress s) then
    if isLoadingBalance s then BalanceLoading
    else match balance s with
         | Some b =>
             BalanceValue (if isZeroAddress rt s then "ETH余额" else "代币余额")
               (formatUnits b (tokenDecimals s))
         | None => BalanceUnreadable
         end
  else NoBalanceLine.

(** The preview under the amount field; [None] when it is not rendered. *)
Definition amountPreview (s : State) : option string :=
  if Js.truthy (amount s) && Js.truthy (tokenAddress s) && isAddress rt (tokenAddress s)
  then
    Some match parseUnits rt (amount s)
                 (if isZeroAddress rt s then 18%nat else tokenDecimals s) with
         | Some v => Js.show_Z v
         | None => "无效数量"
         end
  else None.

End Page.

(** [{success && txHash && (...)}] *)
Definition successPanel (s : State) : option SuccessPanel :=
  if Js.truthy (success s) && Js.truthy (txHash s)
  then Some (mkPanel (success s) (getExplorerUrl (txHash s))
               (formatTxHash (Some (txHash s))))
  else None.

(** *** Reading a trace *)

(** The state change a setter call stands for. *)
Definition apply_event (e : Event) (s : State) : State :=
  match e with
  | SetIsMinting v => with_isMinting v s
  | SetIsClaiming v => with_isClaiming v s
  | SetError v => with_error v s
  | SetSuccess v => with_success v s
  | SetTxHash v => with_txHash v s
  | SetTxType v => with_txType v s
  | SetBalance v => with_balance v s
  | SetIsLoadingBalance v => with_isLoadingBalance v s
  | SetTokenDecimals v => with_tokenDecimals v s
  | _ => s
  end.

Definition replay (t : list Event) (s : State) : State :=
  fold_left (fun s e => apply_event e s) t s.

(** Every call to the chain in the trace is made in a state where
    [flag] holds, the state being followed from [s] along the trace. *)
Fixpoint calls_while (flag : State -> bool) (s : State) (t : list Event) : bool :=
  match t with
  | [] => true
  | Net c :: r => flag s && calls_while flag s r
  | e :: r => calls_while flag (apply_event e s) r
  end.

(** The fields the user fills in are the same in both states. *)
Definition same_form (s s' : State) : Prop :=
  connectedAddress s' = connectedAddress s
  /\ tokenAddress s' = tokenAddress s
  /\ receiverAddress s' = receiverAddress s
  /\ amount s' = amount s.

(** The fields of the transaction flows are the same in both states. *)
Definition same_flow (s s' : State) : Prop :=
  isMinting s' = isMinting s
  /\ isClaiming s' = isClaiming s
  /\ error s' = error s
  /\ success s' = success s
  /\ txHash s' = txHash s
  /\ txType s' = txType s.

End App.

(* ------------------------------------------------------------------ *)
(** ** The debounced balance fetch *)

Module Debounce.

(** A timer set by [setTimeout]: its id, the time at which it is due,
    and the token address its callback passes to [fetchBalance]. *)
Record Timer := mkTimer {
  timer_id : nat;
  deadline : nat;
  timer_address : string
}.

(** Time is counted in milliseconds. *)
Record Sched := mkSched {
  now : nat;
  nextId : nat;                      (* [setTimeout] hands out positive ids *)
  pending : list Timer;
  debounceTimerRef : option nat;     (* [useRef(null)] *)
  has_cleanup : bool;                (* the last effect returned a cleanup *)
  fired : list (nat * string);       (* [fetchBalance(a)] called at time t *)
  ui_events : list (nat * App.Event);(* setter calls of the effect itself *)
  tokenAddress : string              (* [useState("")] *)
}.

Definition init : Sched := mkSched 0 1 [] None false [] [] EmptyString.

Definition clearTimeout (id : nat) (s : Sched) : Sched :=
  mkSched (now s) (nextId s)
    (filter (fun tm => negb (timer_id tm =? id)%nat) (pending s))
    (debounceTimerRef s) (has_cleanup s) (fired s) (ui_events s) (tokenAddress s).

(** [if (debounceTimerRef.current) clearTimeout(debounceTimerRef.current)] *)
Definition clear_current (s : Sched) : Sched :=
  match debounceTimerRef s with
  | Some id => if (id =? 0)%nat then s else clearTimeout id s
  | None => s
  end.

Definition delay : nat := 500.

Definition setTokenAddress (a : string) (s : Sched) : Sched :=
  mkSched (now s) (nextId s) (pending s) (debounceTimerRef s) (has_cleanup s)
    (fired s) (ui_events s) a.

Section Effect.

Variable checksumOk : string -> bool.

Definition valid (a : string) : bool :=
  Js.truthy a && Viem.isAddress checksumOk a.

(** The body of the effect, run with the new [tokenAddress]. *)
Definition effect (tokenAddress' : string) (s : Sched) : Sched :=
  let s1 := clear_current s in
  if negb (Js.truthy tokenAddress') || negb (Viem.isAddress checksumOk tokenAddress')
  then
    mkSched (now s1) (nextId s1) (pending s1) (debounceTimerRef s1) false (fired s1)
      (ui_events s1 ++ [(now s1, App.SetBalance None);
                        (now s1, App.SetIsLoadingBalance false)])
      (tokenAddress s1)
  else
    let id := nextId s1 in
    mkSched (now s1) (S id)
      (pending s1 ++ [mkTimer id (now s1 + delay) tokenAddress'])
      (Some id) true (fired s1) (ui_events s1) (tokenAddress s1).

(** The cleanup the effect returns, when it returns one. *)
Definition cleanup (s : Sched) : Sched :=
  if has_cleanup s then clear_current s else s.

(** A change of [tokenAddress]: React runs the cleanup of the previous
    effect, then the effect. *)
Definition onTokenAddressChange (tokenAddress' : string) (s : Sched) : Sched :=
  effect tokenAddress' (cleanup s).

(** Teardown of the component. *)
Definition unmount (s : Sched) : Sched := cleanup s.

(** Time passes until [t]: the timers due by then fire, each at its
    deadline.  Timers are kept in the order they were set, which is
    the order of their deadlines since the delay is constant. *)
Definition advance (t : nat) (s : Sched) : Sched :=
  let due := filter (fun tm => (deadline tm <=? t)%nat) (pending s) in
  let rest := filter (fun tm => negb (deadline tm <=? t)%nat) (pending s) in
  mkSched (Nat.max (now s) t) (nextId s) rest (debounceTimerRef s) (has_cleanup s)
    (fired s ++ map (fun tm => (deadline tm, timer_address tm)) due)
    (ui_events s) (tokenAddress s).

(** The address field is set to [snd e] at time [fst e] (typing, or the
    button that fills in the zero address).  The effect depends on
    [tokenAddress] (and on [fetchBalance], which never changes), so it is
    run again only when the address is a new one: setting the address the
    field already holds changes nothing. *)
Definition edit (s : Sched) (e : nat * string) : Sched :=
  let s1 := advance (fst e) s in
  if String.eqb (tokenAddress s1) (snd e) then s1
  else onTokenAddressChange (snd e) (setTokenAddress (snd e) s1).

Definition run_edits (es : list (nat * string)) (s : Sched) : Sched :=
  fold_left edit es s.


(** The state at some time after the address was last changed, at time
    [t] and to the address [a]: the timer of that change is pending until
    it is due. *)
Definition settled (s : Sched) (t : nat) (a : string) : Prop :=
  tokenAddress s = a
  /\ t <= now s
  /\ 1 <= nextId s
  /\ has_cleanup s = valid a
  /\ if valid a && (now s <? t + delay)%nat
     then exists id, id <> 0
                     /\ pending s = [mkTimer id (t + delay) a]
                     /\ debounceTimerRef s = Some id
     else pending s = [].

(** The time of the first edit of [es] that changes the address
    [current]; [T] when there is none. *)
Fixpoint next_change (current : string) (es : list (nat * string)) (T : nat) : nat :=
  match es with
  | [] => T
  | (t, a) :: r => if String.eqb current a then next_change current r T else t
  end.

(** The fetches a run of edits leads to, read off the edits: an edit
    that changes the address to a valid one leads to a fetch 500 ms later
    when the address is not changed again before that; [current] is the
    address in the field before the edits, [T] the time up to which the
    run is watched. *)
Fixpoint expected_fired_from (current : string) (es : list (nat * string)) (T : nat)
  : list (nat * string) :=
  match es with
  | [] => []
  | (t, a) :: r =>
      if String.eqb current a then expected_fired_from current r T
      else
        ((if valid a && (t + delay <=? next_change a r T)%nat
          then [(t + delay, a)] else [])
           ++ expected_fired_from a r T)%list
  end.

Definition expected_fired (es : list (nat * string)) (T : nat) : list (nat * string) :=
  expected_fired_from EmptyString es T.

(** The resets of the balance the effect makes by itself: one for each
    edit that changes the address to an empty or invalid one. *)
Fixpoint expected_resets_from (current : string) (es : list (nat * string))
  : list (nat * App.Event) :=
  match es with
  | [] => []
  | (t, a) :: r =>
      if String.eqb current a then expected_resets_from current r
      else
        ((if valid a then []
          else [(t, App.SetBalance None); (t, App.SetIsLoadingBalance false)])
           ++ expected_resets_from a r)%list
  end.

Definition expected_resets (es : list (nat * string)) : list (nat * App.Event) :=
  expected_resets_from EmptyString es.

End Effect.

(** At most one timer is pending, and the ref holds its id. *)
Definition tame (s : Sched) : Prop :=
  1 <= nextId s
  /\ (pending s = []
      \/ exists tm, pending s = [tm]
                    /\ debounceTimerRef s = Some (timer_id tm)
                    /\ timer_id tm <> 0).

(** Edit times that do not go back in time. *)
Fixpoint ordered_from (prev : nat) (es : list (nat * string)) : bool :=
  match es with
  | [] => true
  | (t, _) :: r => (prev <=? t)%nat && ordered_from t r
  end.

Definition ordered (es : list (nat * string)) : bool := ordered_from 0 es.





(** No edit comes after the time [T]. *)
Definition before (T : nat) (es : list (nat * string)) : bool :=
  forallb (fun e => (fst e <=? T)%nat) es.

End Debounce.

(* ------------------------------------------------------------------ *)
(** ** A runtime to run the model with *)

Module Reference.

(** The decimal literals of the form sign, digits, dot, digits (each
    part optional) with at least one digit: on them the functions below
    give the exact decimal value.  Other forms that JavaScript reads as
    numbers (exponents, [Infinity], hexadecimal, blanks around the
    literal) are outside this runtime and count as not-a-number. *)
Definition has_digit (s : string) : bool :=
  negb (Js.all_chars (fun c => negb (Js.is_digit c)) s).

Definition literal (s : string) : option (bool * string * string) :=
  if Viem.decimalRegex s && has_digit s then
    let parts := Js.split "." s in
    let i := hd EmptyString parts in
    let f := match parts with _ :: f :: _ => f | _ => EmptyString end in
    match i with
    | String "-" i' => Some (true, i', f)
    | _ => Some (false, i, f)
    end
  else None.

Definition isNaN (s : string) : bool :=
  if Js.truthy s then match literal s with Some _ => false | None => true end
  else false.

Definition parseFloat (s : string) : Js.number :=
  match literal s with
  | Some (neg, i, f) =>
      let scale := (10 ^ N.of_nat (String.length f))%N in
      let m := (Js.digits_value 0 i * scale + Js.digits_value 0 f)%N in
      let q := (Z.of_N m # Pos.of_nat (N.to_nat scale))%Q in
      Js.Finite (if neg then Qopp q else q)
  | None => Js.NaN
  end.

(** Rounding half up of a non-negative decimal literal. *)
Definition roundNumber (s : string) : option N :=
  match literal s with
  | Some (false, i, f) =>
      let up := match f with
                | String c _ => (5 <=? Js.digit_value c)%N
                | EmptyString => false
                end in
      Some (Js.digits_value 0 i + (if up then 1 else 0))%N
  | _ => None
  end.

(** No address with an upper-case letter passes the checksum test here;
    the addresses the examples use are in lower case. *)
Definition checksumOk (s : string) : bool := false.

Definition runtime : App.Runtime :=
  App.mkRuntime checksumOk roundNumber isNaN parseFloat true.

End Reference.

(* ------------------------------------------------------------------ *)
(** ** Example data *)

Module Examples.

Definition token : string := "0x1111111111111111111111111111111111111111".
Definition receiver : string := "0x2222222222222222222222222222222222222222".
Definition account : string := "0x3333333333333333333333333333333333333333".

(** A render of the form, filled in. *)
Definition form (acct : option string) (tokenAddr amt : string) (decimals : nat)
  : App.State :=
  App.mkState acct tokenAddr receiver amt false false
    EmptyString EmptyString EmptyString EmptyString None false decimals.

(** A render that shows the result of an earlier mint. *)
Definition after_mint (tokenAddr amt : string) : App.State :=
  App.mkState (Some account) tokenAddr receiver amt false false
    EmptyString "Mint成功！" "0xfeed" "mint" (Some 42%N) false 6.

Definition start (p : App.State) : App.World := App.mkWorld p 0.

(** Valid addresses and a positive amount, but no wallet connected. *)
Definition no_wallet : App.State := form None token "1" 18.

(** A valid request for 2.5 units of a token with 6 decimals. *)
Definition token_request : App.State := form (Some account) token "2.5" 6.

(** A valid request for 1.5 units of the native asset; the decimals in
    the state are those of the token looked at before. *)
Definition native_request : App.State := form (Some account) Viem.zeroAddress "1.5" 6.

(** The form after an earlier mint, with the token address half typed. *)
Definition half_typed : App.State := after_mint "0x12" "1".


(** A chain on which every call succeeds. *)
Definition healthy : App.Chain :=
  App.mkChain (fun _ r =>
                 match App.read_abi r with
                 | App.ERC20ABI => Some 6%N
                 | App.FaucetABI => Some 1000000%N
                 end)
    (fun _ _ => Some 5000000000000000000%N)
    (fun _ _ => Some "0xabc")
    (fun _ _ => true).

(** A chain on which every read fails. *)
Definition unreadable : App.Chain :=
  App.mkChain (fun _ _ => None) (fun _ _ => None)
    (fun _ _ => Some "0xabc") (fun _ _ => true).

(** A chain that accepts a transaction and then fails to confirm it. *)
Definition unconfirmed : App.Chain :=
  App.mkChain (fun _ _ => Some 6%N) (fun _ _ => Some 7%N)
    (fun _ _ => Some "0xabc") (fun _ _ => false).

(** A wallet that rejects every transaction. *)
Definition rejecting : App.Chain :=
  App.mkChain (fun _ _ => Some 6%N) (fun _ _ => Some 7%N)
    (fun _ _ => None) (fun _ _ => true).

(** A transaction hash as the chain gives it. *)
Definition long_hash : string :=
  "0x9f3c5b2a7d1e4f60812233445566778899aabbccddeeff00112233445566beef".

(** The form with a letter typed in the amount field. *)
Definition bad_amount : App.State := form (Some account) token "1e3" 6.

(** A chain that answers every submission with [long_hash]. *)
Definition confirming : App.Chain :=
  App.mkChain (fun _ r =>
                 match App.read_abi r with
                 | App.ERC20ABI => Some 6%N
                 | App.FaucetABI => Some 1000000%N
                 end)
    (fun _ _ => Some 5000000000000000000%N)
    (fun _ _ => Some long_hash)
    (fun _ _ => true).

(** The reference runtime, taught one number in exponent notation. *)
Definition scientific : App.Runtime :=
  App.mkRuntime Reference.checksumOk Reference.roundNumber
    (fun s => if String.eqb s "1e3" then false else Reference.isNaN s)
    (fun s => if String.eqb s "1e3" then Js.Finite (1000 # 1)
              else Reference.parseFloat s)
    true.

(** The reference runtime in a browser without a wallet extension. *)
Definition no_provider : App.Runtime :=
  App.mkRuntime Reference.checksumOk Reference.roundNumber
    Reference.isNaN Reference.parseFloat false.

(** Edits of the address field, some of them far apart, one of them
    setting the address the field already holds. *)
Definition slow_edits : list (nat * string) :=
  [(0, receiver); (100, account); (900, "0x12"); (1000, token); (1300, token);
   (1600, receiver)].

(** The state in which the token address is [token]. *)
Definition watching : App.World := start token_request.

(** A stand-in for [formatUnits] that keeps both arguments apart. *)
Definition formatUnits (v : N) (d : nat) : string :=
  Js.show_N v ++ "e-" ++ Js.show_N (N.of_nat d).

End Examples.

(* ------------------------------------------------------------------ *)
(** ** Facts about addresses *)

Section Addresses.

Variable checksumOk : string -> bool.

Lemma lower_char_of_upper (c : ascii) :
  Js.is_upper c = true -> Js.is_lower (Js.lower_char c) = true.
Proof.
  destruct c as [[] [] [] [] [] [] [] []]; vm_compute; congruence.
Qed.

Lemma lower_char_fixed (c d : ascii) :
  Js.lower_char c = d -> Js.is_lower d = false -> c = d.
Proof.
  intros Hl Hd. unfold Js.lower_char in Hl.
  destruct (Js.is_upper c) eqn:Hu; [|exact Hl].
  pose proof (lower_char_of_upper c Hu) as Hlow.
  unfold Js.lower_char in Hlow. rewrite Hu, Hl in Hlow. congruence.
Qed.

Lemma toLowerCase_fixed (s t : string) :
  Js.toLowerCase s = t ->
  Js.all_chars (fun c => negb (Js.is_lower c)) t = true ->
  s = t.
Proof.
  revert t. induction s as [|c r IH]; intros [|d t] H Hall; simpl in *;
    try discriminate; [reflexivity|].
  injection H as Hc Hr.
  apply andb_prop in Hall as [Hd Ht].
  apply negb_true_iff in Hd.
  f_equal; [apply lower_char_fixed; assumption | apply IH; assumption].
Qed.

Lemma addressRegex_prefix (a : string) :
  Viem.addressRegex a = true -> exists r, a = String "0" (String "x" r).
Proof.
  destruct a as [|c [|d r]]; simpl; try discriminate.
  - destruct c as [[] [] [] [] [] [] [] []]; discriminate.
  - destruct c as [[] [] [] [] [] [] [] []]; try discriminate;
      destruct d as [[] [] [] [] [] [] [] []]; try discriminate.
    intros _. eexists; reflexivity.
Qed.

Lemma isAddress_regex (a : string) :
  Viem.isAddress checksumOk a = true -> Viem.addressRegex a = true.
Proof.
  unfold Viem.isAddress. destruct (Viem.addressRegex a); simpl; congruence.
Qed.

Lemma isAddress_truthy (a : string) :
  Viem.isAddress checksumOk a = true -> Js.truthy a = true.
Proof.
  intros H. apply isAddress_regex, addressRegex_prefix in H as [r ->]. reflexivity.
Qed.

Lemma isAddress_zeroAddress : Viem.isAddress checksumOk Viem.zeroAddress = true.
Proof. reflexivity. Qed.

(** Among the valid addresses, the case-insensitive comparison with the
    zero address singles out the zero address itself. *)
Lemma lower_eq_zeroAddress (a : string) :
  Viem.isAddress checksumOk a = true ->
  String.eqb (Js.toLowerCase a) (Js.toLowerCase Viem.zeroAddress) = true ->
  a = Viem.zeroAddress.
Proof.
  intros Ha Hz. apply String.eqb_eq in Hz.
  apply isAddress_regex, addressRegex_prefix in Ha as [r ->].
  change (Js.toLowerCase Viem.zeroAddress) with Viem.zeroAddress in Hz.
  unfold Viem.zeroAddress in *.
  cbn [Js.toLowerCase] in Hz.
  injection Hz as Hr.
  apply toLowerCase_fixed in Hr; [|reflexivity].
  now rewrite Hr.
Qed.

End Addresses.

(* ------------------------------------------------------------------ *)
(** ** Facts about the component *)

Import App.
Local Open Scope js_scope.

Arguments App.isAddress : simpl never.
Arguments App.is_zero : simpl never.
Arguments App.parseUnits : simpl never.
Arguments App.parseGwei : simpl never.
Arguments App.amount_rejected : simpl never.
Arguments App.isZeroAddress : simpl never.
Arguments Js.truthy : simpl never.

Ltac unfold_js :=
  unfold run, final, trace, bind, ret, throw, try_catch, try_finally, or_throw,
    setIsMinting, setIsClaiming, setError, setSuccess, setTxHash, setTxType,
    setBalance, setIsLoadingBalance, setTokenDecimals,
    public_readContract, public_getBalance, wallet_writeContract,
    public_waitForTransactionReceipt, emit, call, set_state in *.

Ltac with_provider :=
  unfold createWalletClient;
  try match goal with
      | H : ethereum _ = _ |- _ => rewrite H
      end.

Ltac split_if :=
  match goal with
  | |- context [if ?c then _ else _] => destruct c eqn:?
  | |- context [match ?c with Some _ => _ | None => _ end] => destruct c eqn:?
  end.

Section Flows.

Variable rt : Runtime.
Variable chain : Chain.

Lemma parseGwei_50 : parseGwei rt "50" = Some 50000000000%Z.
Proof. reflexivity. Qed.

Lemma is_zero_zeroAddress : is_zero Viem.zeroAddress = true.
Proof. reflexivity. Qed.

Lemma is_zero_other (a : string) :
  isAddress rt a = true -> a <> Viem.zeroAddress -> is_zero a = false.
Proof.
  intros Ha Hne. destruct (is_zero a) eqn:Hz; [|reflexivity].
  exfalso. apply Hne. eapply lower_eq_zeroAddress; eassumption.
Qed.

Lemma isAddress_nonempty (a : string) :
  isAddress rt a = true -> Js.truthy a = true.
Proof. apply isAddress_truthy. Qed.

Lemma isZeroAddress_eqb (p : State) :
  isAddress rt (tokenAddress p) = true ->
  isZeroAddress rt p = String.eqb (tokenAddress p) Viem.zeroAddress.
Proof.
  intros Ha. unfold isZeroAddress.
  rewrite Ha, (isAddress_nonempty _ Ha). simpl.
  destruct (String.eqb_spec (tokenAddress p) Viem.zeroAddress) as [->|Hne].
  - reflexivity.
  - now apply is_zero_other.
Qed.

(** What [validateInputs] does, by cases: it accepts the inputs, it
    reports a check that fails, or the three checks pass and the wallet
    client cannot be built. *)
Lemma validateInputs_cases (p : State) :
  (isAddress rt (tokenAddress p) = true
   /\ isAddress rt (receiverAddress p) = true
   /\ amount_rejected rt (amount p) = false
   /\ ethereum rt = true
   /\ forall w, validateInputs rt p w
                = (Return true, mkWorld (with_error EmptyString (ui w)) (calls w),
                   [SetError EmptyString]))
  \/ (exists msg, msg <> EmptyString
      /\ forall w, validateInputs rt p w
                   = (Return false, mkWorld (with_error msg (ui w)) (calls w),
                      [SetError msg]))
  \/ (isAddress rt (tokenAddress p) = true
      /\ isAddress rt (receiverAddress p) = true
      /\ amount_rejected rt (amount p) = false
      /\ ethereum rt = false
      /\ forall w, validateInputs rt p w = (Throw ProviderMissing, w, [])).
Proof.
  unfold validateInputs, createWalletClient.
  destruct (isAddress rt (tokenAddress p)) eqn:Ht.
  2:{ right; left. eexists. split; [|intros w; rewrite orb_true_r; reflexivity].
      discriminate. }
  rewrite (isAddress_nonempty _ Ht).
  destruct (isAddress rt (receiverAddress p)) eqn:Hr.
  2:{ right; left. eexists. split; [|intros w; rewrite orb_true_r; reflexivity].
      discriminate. }
  rewrite (isAddress_nonempty _ Hr).
  destruct (amount_rejected rt (amount p)) eqn:Ha.
  - right; left. eexists. split; [|intros w; reflexivity]. discriminate.
  - destruct (ethereum rt) eqn:He.
    + left. repeat split.
    + right; right. repeat split.
Qed.

Lemma validateInputs_passes (p : State) (w0 : World) :
  run (validateInputs rt p) w0 = Return true ->
  isAddress rt (tokenAddress p) = true
  /\ isAddress rt (receiverAddress p) = true
  /\ amount_rejected rt (amount p) = false
  /\ ethereum rt = true
  /\ forall w, validateInputs rt p w
               = (Return true, mkWorld (with_error EmptyString (ui w)) (calls w),
                  [SetError EmptyString]).
Proof.
  intros H.
  destruct (validateInputs_cases p)
    as [Hok|[(msg & _ & Hbad)|(_ & _ & _ & _ & Hbad)]]; [exact Hok| |];
    unfold run in H; rewrite Hbad in H; discriminate.
Qed.

Lemma validateInputs_fails (p : State) (w0 : World) :
  run (validateInputs rt p) w0 = Return false ->
  exists msg, msg <> EmptyString
    /\ forall w, validateInputs rt p w
                 = (Return false, mkWorld (with_error msg (ui w)) (calls w),
                    [SetError msg]).
Proof.
  intros H.
  destruct (validateInputs_cases p)
    as [(_ & _ & _ & _ & Hok)|[Hbad|(_ & _ & _ & _ & Hok)]]; [|exact Hbad|];
    unfold run in H; rewrite Hok in H; discriminate.
Qed.

End Flows.

Lemma truthy_cons (c : ascii) (r : string) : Js.truthy (String c r) = true.
Proof. reflexivity. Qed.

Lemma truthy_empty : Js.truthy EmptyString = false.
Proof. reflexivity. Qed.

(** The message of the first check that fails; empty when none does. *)
Lemma validateInputs_outcome (rt : Runtime) (p : State) (w : World) :
  validateInputs rt p w
  = let msg := if negb (isAddress rt (tokenAddress p)) then "请输入有效的代币地址"
               else if negb (isAddress rt (receiverAddress p))
                    then "请输入有效的接收地址"
                    else if amount_rejected rt (amount p) then "请输入有效的数量"
                         else EmptyString in
    if negb (Js.truthy msg) && negb (ethereum rt)
    then (Throw ProviderMissing, w, [])
    else (Return (negb (Js.truthy msg)), mkWorld (with_error msg (ui w)) (calls w),
          [SetError msg]).
Proof.
  unfold validateInputs, createWalletClient.
  destruct (isAddress rt (tokenAddress p)) eqn:Ht;
    [rewrite (isAddress_nonempty _ _ Ht) | rewrite orb_true_r; reflexivity].
  destruct (isAddress rt (receiverAddress p)) eqn:Hr;
    [rewrite (isAddress_nonempty _ _ Hr) | rewrite orb_true_r; reflexivity].
  destruct (amount_rejected rt (amount p)); [reflexivity|].
  destruct (ethereum rt); reflexivity.
Qed.

Arguments App.validateInputs : simpl never.

Ltac exec := unfold_js; cbn; repeat (split_if; cbn); try congruence.

(** ** The decimals resolver *)

(** What [fetchTokenDecimals] does on a valid address other than the zero
    address, by the answer of the chain. *)
Lemma fetchTokenDecimals_query (rt : Runtime) (chain : Chain) (a : string) (w : World) :
  isAddress rt a = true -> a <> Viem.zeroAddress ->
  fetchTokenDecimals rt chain a w =
    match readContract chain (calls w) (decimalsRequest a) with
    | Some d =>
        (Return (N.to_nat d),
         mkWorld (with_tokenDecimals (N.to_nat d) (ui w)) (S (calls w)),
         [Net (ReadContract (decimalsRequest a)); SetTokenDecimals (N.to_nat d)])
    | None =>
        (Return 18%nat,
         mkWorld (with_tokenDecimals 18 (ui w)) (S (calls w)),
         [Net (ReadContract (decimalsRequest a));
          ConsoleWarn "Failed to fetch token decimals, using default 18:";
          SetTokenDecimals 18])
    end.
Proof.
  intros Ha Hne. unfold fetchTokenDecimals, decimalsRequest.
  rewrite Ha, (isAddress_nonempty _ _ Ha), (is_zero_other _ _ Ha Hne).
  exec.
Qed.

Lemma fetchTokenDecimals_default (rt : Runtime) (chain : Chain) (a : string) (w : World) :
  isAddress rt a = false \/ a = Viem.zeroAddress ->
  fetchTokenDecimals rt chain a w =
    (Return 18%nat, mkWorld (with_tokenDecimals 18 (ui w)) (calls w), [SetTokenDecimals 18]).
Proof.
  intros [Ha | ->]; unfold fetchTokenDecimals.
  - rewrite Ha, orb_true_r. reflexivity.
  - rewrite is_zero_zeroAddress.
    destruct (_ || _); reflexivity.
Qed.

(** C2.  For every string, [fetchTokenDecimals] returns 18 without a call
    to the chain when the string is not a valid address or is the zero
    address; otherwise it makes exactly one call, the read of the token's
    [decimals], returns the value read when the call succeeds, and logs a
    warning and returns 18 when the call throws.  In every case it
    returns: no exception leaves it. *)
Theorem fetchTokenDecimals_spec (rt : Runtime) (chain : Chain) (a : string) (w : World) :
  (isAddress rt a = false \/ a = Viem.zeroAddress ->
     run (fetchTokenDecimals rt chain a) w = Return 18%nat
     /\ net_calls (trace (fetchTokenDecimals rt chain a) w) = [])
  /\ (isAddress rt a = true -> a <> Viem.zeroAddress ->
        net_calls (trace (fetchTokenDecimals rt chain a) w)
          = [ReadContract (decimalsRequest a)]
        /\ (forall d, readContract chain (calls w) (decimalsRequest a) = Some d ->
              run (fetchTokenDecimals rt chain a) w = Return (N.to_nat d)
              /\ tokenDecimals (final (fetchTokenDecimals rt chain a) w) = N.to_nat d
              /\ ~ warned (trace (fetchTokenDecimals rt chain a) w))
        /\ (readContract chain (calls w) (decimalsRequest a) = None ->
              run (fetchTokenDecimals rt chain a) w = Return 18%nat
              /\ tokenDecimals (final (fetchTokenDecimals rt chain a) w) = 18%nat
              /\ warned (trace (fetchTokenDecimals rt chain a) w)))
  /\ (exists n, run (fetchTokenDecimals rt chain a) w = Return n).
Proof.
  split; [|split].
  - intros H. unfold run, trace. rewrite (fetchTokenDecimals_default _ _ _ _ H).
    split; reflexivity.
  - intros Ha Hne. unfold run, trace, final, warned.
    rewrite (fetchTokenDecimals_query _ _ _ _ Ha Hne).
    split; [destruct (readContract _ _ _); reflexivity|].
    split.
    + intros d ->. cbn. repeat split.
      intros [H|[H|[]]]; discriminate.
    + intros ->. cbn. repeat split. right; left; reflexivity.
  - destruct (isAddress rt a) eqn:Ha.
    + destruct (String.eqb_spec a Viem.zeroAddress) as [He|Hne].
      * eexists. unfold run. rewrite fetchTokenDecimals_default by (now right). reflexivity.
      * unfold run. rewrite (fetchTokenDecimals_query _ _ _ _ Ha Hne).
        destruct (readContract _ _ _); eexists; reflexivity.
    + eexists. unfold run. rewrite fetchTokenDecimals_default by (now left). reflexivity.
Qed.

Arguments App.fetchTokenDecimals : simpl never.

(** ** The balance fetcher *)

Ltac exec_token Ha Hne :=
  unfold fetchBalance;
  rewrite Ha, (isAddress_nonempty _ _ Ha), (is_zero_other _ _ Ha Hne);
  unfold_js; cbn;
  rewrite (fetchTokenDecimals_query _ _ _ _ Ha Hne); cbn;
  repeat (split_if; cbn).

Ltac exec_invalid Ha :=
  unfold fetchBalance; rewrite Ha, orb_true_r; unfold_js; cbn.

Lemma isAddress_zeroAddress' (rt : Runtime) : isAddress rt Viem.zeroAddress = true.
Proof. reflexivity. Qed.

Ltac exec_native :=
  unfold fetchBalance;
  rewrite isAddress_zeroAddress', is_zero_zeroAddress;
  change (Js.truthy Viem.zeroAddress) with true;
  unfold_js; cbn; repeat (split_if; cbn).

(** [fetchBalance] returns, whatever the chain answers. *)
Lemma fetchBalance_returns (rt : Runtime) (chain : Chain) (a : string) (w : World) :
  run (fetchBalance rt chain a) w = Return tt.
Proof.
  destruct (isAddress rt a) eqn:Ha.
  - destruct (String.eqb_spec a Viem.zeroAddress) as [->|Hne].
    + exec_native; reflexivity.
    + exec_token Ha Hne; reflexivity.
  - exec_invalid Ha. reflexivity.
Qed.

(** C9.  On every path of [fetchBalance] (invalid address, fetch that
    succeeds, fetch that fails) the loading flag is cleared exactly once,
    the function returns, and the flag is not set when it does. *)
Theorem fetchBalance_clears_loading_once
  (rt : Runtime) (chain : Chain) (a : string) (w : World) :
  loading_cleared (trace (fetchBalance rt chain a) w) = 1
  /\ isLoadingBalance (final (fetchBalance rt chain a) w) = false
  /\ run (fetchBalance rt chain a) w = Return tt.
Proof.
  destruct (isAddress rt a) eqn:Ha.
  - destruct (String.eqb_spec a Viem.zeroAddress) as [->|Hne].
    + exec_native; repeat split.
    + exec_token Ha Hne; repeat split.
  - exec_invalid Ha. repeat split.
Qed.

(** X18.  The calls [fetchBalance] makes.  For a valid token address
    other than the zero address it calls the chain twice, whatever the
    answers: first the read of the token's [decimals], then the faucet's
    [getTokenBalance] with the arguments (token address, faucet address);
    the balance it stores is what that view returns.  For the zero address
    it makes one call, the native balance of the faucet's own address, and
    stores the balance (and 18 decimals) when that call succeeds. *)
Theorem fetchBalance_reads_faucet_holdings
  (rt : Runtime) (chain : Chain) (a : string) (w : World) :
  (isAddress rt a = true -> a <> Viem.zeroAddress ->
     net_calls (trace (fetchBalance rt chain a) w)
       = [ReadContract (decimalsRequest a); ReadContract (tokenBalanceRequest a)]
     /\ tokenDecimals (final (fetchBalance rt chain a) w)
        = match readContract chain (calls w) (decimalsRequest a) with
          | Some d => N.to_nat d
          | None => 18%nat
          end
     /\ forall v, readContract chain (S (calls w)) (tokenBalanceRequest a) = Some v ->
                  balance (final (fetchBalance rt chain a) w) = Some v)
  /\ (a = Viem.zeroAddress ->
        net_calls (trace (fetchBalance rt chain a) w) = [GetBalance faucetAddress]
        /\ forall v, getBalance chain (calls w) faucetAddress = Some v ->
                     balance (final (fetchBalance rt chain a) w) = Some v
                     /\ tokenDecimals (final (fetchBalance rt chain a) w) = 18%nat).
Proof.
  split.
  - intros Ha Hne. unfold tokenBalanceRequest.
    exec_token Ha Hne; (split; [reflexivity|split; [reflexivity|]]);
      intros v Hv; congruence.
  - intros ->. exec_native; (split; [reflexivity|]); intros v Hv;
      split; congruence.
Qed.

(** C7, as the code has it.  For an empty or invalid address
    [fetchBalance] sets the balance to [null] without a call to the chain
    and clears the loading flag; when the balance query fails it logs the
    failure and sets the balance to [null] as well. *)
Theorem fetchBalance_null_balance
  (rt : Runtime) (chain : Chain) (a : string) (w : World) :
  (isAddress rt a = false ->
     balance (final (fetchBalance rt chain a) w) = None
     /\ net_calls (trace (fetchBalance rt chain a) w) = []
     /\ isLoadingBalance (final (fetchBalance rt chain a) w) = false)
  /\ (a = Viem.zeroAddress ->
      getBalance chain (calls w) faucetAddress = None ->
        balance (final (fetchBalance rt chain a) w) = None
        /\ fetch_failure_logged (trace (fetchBalance rt chain a) w))
  /\ (isAddress rt a = true -> a <> Viem.zeroAddress ->
      readContract chain (S (calls w)) (tokenBalanceRequest a) = None ->
        balance (final (fetchBalance rt chain a) w) = None
        /\ fetch_failure_logged (trace (fetchBalance rt chain a) w)).
Proof.
  unfold fetch_failure_logged. split; [|split].
  - intros Ha. exec_invalid Ha. repeat split.
  - intros -> Hf. exec_native; try congruence. split; [reflexivity|].
    simpl. tauto.
  - intros Ha Hne. unfold tokenBalanceRequest. intros Hf.
    exec_token Ha Hne; try congruence; (split; [reflexivity|]); simpl; tauto.
Qed.

Arguments App.fetchBalance : simpl never.

(** ** The mint and claim flows *)

Lemma bind_trace {A B} (m : M A) (f : A -> M B) (w : World) :
  trace (bind m f) w
  = (trace m w ++ match m w with
                  | (Return a, w1, _) => trace (f a) w1
                  | (Throw _, _, _) => []
                  end)%list.
Proof.
  unfold trace, bind. destruct (m w) as [[[a|e] w1] t1]; simpl.
  - destruct (f a w1) as [[r w2] t2]. reflexivity.
  - now rewrite app_nil_r.
Qed.

Ltac use_fetchBalance :=
  match goal with
  | |- context [fetchBalance ?rt ?ch ?a ?w] =>
      let H := fresh "Hfb" in
      pose proof (fetchBalance_returns rt ch a w) as H; unfold run in H;
      destruct (fetchBalance rt ch a w) as [[? ?] ?]; cbn in H; subst; cbn
  end.

Ltac exec_flow := repeat (first [split_if | use_fetchBalance]; cbn).

(** A handler returns unless [validateInputs] throws: every exception
    raised after validation is caught by the handler, and an exception of
    the validation, which runs outside the [try], leaves the handler. *)
Lemma handlers_settle (rt : Runtime) (chain : Chain) (p : State) (w : World) :
  run (handleMint rt chain p) w
  = match run (validateInputs rt p) w with
    | Return _ => Return tt
    | Throw e => Throw e
    end
  /\ run (handleClaim rt chain p) w
     = match run (validateInputs rt p) w with
       | Return _ => Return tt
       | Throw e => Throw e
       end.
Proof.
  destruct (validateInputs_cases rt p)
    as [(_ & _ & _ & Heth & Heq)|[(msg & _ & Heq)|(_ & _ & _ & _ & Heq)]];
    split; unfold run at 2; rewrite Heq; cbn [fst];
    unfold handleMint, handleClaim; with_provider; unfold_js; cbn; rewrite Heq; cbn;
    try rewrite parseGwei_50; try reflexivity; exec_flow; reflexivity.
Qed.

(** C10.  Each handler begins with the four clearing calls (success,
    error, transaction hash, transaction type), and validation runs on
    the cleared state.  When validation fails the handler stops there:
    success, hash and type are empty, the error is the new message, and
    balance, decimals and the loading flag are what they were. *)
Theorem handlers_clear_before_validation
  (rt : Runtime) (chain : Chain) (p : State) (w : World) :
  (exists rest,
     trace (handleMint rt chain p) w
     = (clearing ++ trace (validateInputs rt p) (cleared w) ++ rest)%list)
  /\ (exists rest,
        trace (handleClaim rt chain p) w
        = (clearing ++ trace (validateInputs rt p) (cleared w) ++ rest)%list)
  /\ (run (validateInputs rt p) w = Return false ->
      forall h, h = handleMint rt chain p \/ h = handleClaim rt chain p ->
        run h w = Return tt
        /\ success (final h w) = EmptyString /\ txHash (final h w) = EmptyString
        /\ txType (final h w) = EmptyString /\ error (final h w) <> EmptyString
        /\ balance (final h w) = balance (ui w)
        /\ tokenDecimals (final h w) = tokenDecimals (ui w)
        /\ isLoadingBalance (final h w) = isLoadingBalance (ui w)
        /\ net_calls (trace h w) = []).
Proof.
  split; [|split].
  - unfold handleMint. do 5 (rewrite bind_trace; cbn). eexists. reflexivity.
  - unfold handleClaim. do 5 (rewrite bind_trace; cbn). eexists. reflexivity.
  - intros Hv h Hh. apply validateInputs_fails in Hv as (msg & Hmsg & Heq).
    destruct Hh as [-> | ->]; unfold handleMint, handleClaim; with_provider;
      unfold_js; cbn; rewrite Heq; cbn; repeat split; assumption.
Qed.

(** C8.  When validation has passed and the wallet client fails the
    submission of the flow (it throws on the request the flow hands it),
    the handler shows the generic failure message and leaves no
    transaction hash, transaction type or success message behind. *)
Theorem failed_submission_sets_no_partial_state
  (rt : Runtime) (chain : Chain) (p : State) (w : World) (v : Z) :
  run (validateInputs rt p) w = Return true ->
  parseUnits rt (amount p) (if isZeroAddress rt p then 18%nat else tokenDecimals p)
    = Some v ->
  (writeContract chain (calls w) (mintRequest p v) = None ->
   run (handleMint rt chain p) w = Return tt
   /\ error (final (handleMint rt chain p) w) = "Transaction fail"
   /\ txHash (final (handleMint rt chain p) w) = EmptyString
   /\ txType (final (handleMint rt chain p) w) = EmptyString
   /\ success (final (handleMint rt chain p) w) = EmptyString
   /\ isMinting (final (handleMint rt chain p) w) = false)
  /\ (writeContract chain (calls w) (claimRequest p v) = None ->
      run (handleClaim rt chain p) w = Return tt
      /\ error (final (handleClaim rt chain p) w) = "Transaction fail"
      /\ txHash (final (handleClaim rt chain p) w) = EmptyString
      /\ txType (final (handleClaim rt chain p) w) = EmptyString
      /\ success (final (handleClaim rt chain p) w) = EmptyString
      /\ isClaiming (final (handleClaim rt chain p) w) = false).
Proof.
  intros Hv Hp. apply validateInputs_passes in Hv as (_ & _ & _ & Heth & Heq).
  unfold mintRequest, claimRequest.
  split; intros Hw; unfold handleMint, handleClaim; with_provider; unfold_js; cbn;
    rewrite Heq; cbn; try rewrite parseGwei_50; rewrite Hp; cbn; rewrite Hw; cbn;
    repeat split.
Qed.

(** C6, as the code has it.  The wait for the receipt is inside the
    [try] block of the handler: when the transaction was submitted and
    the wait throws, the [catch] of the handler takes the exception, sets
    the error to the generic failure message and logs it, and the handler
    returns.  The hash, the type and the success message set after the
    submission stay, and the balance is not fetched again. *)
Theorem receipt_failure_is_caught
  (rt : Runtime) (chain : Chain) (p : State) (w : World) (v : Z) (hash : string) :
  run (validateInputs rt p) w = Return true ->
  parseUnits rt (amount p) (if isZeroAddress rt p then 18%nat else tokenDecimals p)
    = Some v ->
  Js.truthy hash = true ->
  waitForTransactionReceipt chain (S (calls w)) hash = false ->
  (writeContract chain (calls w) (mintRequest p v) = Some hash ->
     run (handleMint rt chain p) w = Return tt
     /\ error (final (handleMint rt chain p) w) = "Transaction fail"
     /\ In (ConsoleError "Mint fail:") (trace (handleMint rt chain p) w)
     /\ txHash (final (handleMint rt chain p) w) = hash
     /\ txType (final (handleMint rt chain p) w) = "mint"
     /\ success (final (handleMint rt chain p) w) = "Mint成功！"
     /\ isMinting (final (handleMint rt chain p) w) = false
     /\ net_calls (trace (handleMint rt chain p) w)
        = [WriteContract (mintRequest p v); WaitForTransactionReceipt hash])
  /\ (writeContract chain (calls w) (claimRequest p v) = Some hash ->
        run (handleClaim rt chain p) w = Return tt
        /\ error (final (handleClaim rt chain p) w) = "Transaction fail"
        /\ In (ConsoleError "Claim fail:") (trace (handleClaim rt chain p) w)
        /\ txHash (final (handleClaim rt chain p) w) = hash
        /\ txType (final (handleClaim rt chain p) w) = "claim"
        /\ success (final (handleClaim rt chain p) w) = "Claim成功！"
        /\ isClaiming (final (handleClaim rt chain p) w) = false
        /\ net_calls (trace (handleClaim rt chain p) w)
           = [WriteContract (claimRequest p v); WaitForTransactionReceipt hash]).
Proof.
  intros Hv Hp Hh Hwait.
  apply validateInputs_passes in Hv as (_ & _ & _ & Heth & Heq).
  unfold mintRequest, claimRequest.
  split; intros Hw; unfold handleMint, handleClaim; with_provider; unfold_js; cbn;
    rewrite Heq; cbn;
    try rewrite parseGwei_50; rewrite Hp; cbn; rewrite Hw; cbn; rewrite Hh; cbn;
    rewrite Hwait; cbn; repeat split; tauto.
Qed.

(** C3.  In both flows the amount is converted with 18 decimals when the
    token address is the zero address and with the token decimals of the
    state otherwise, and the converted amount is the one submitted.  The
    amount 1.5 at 18 decimals is 1500000000000000000 base units and the
    amount 2.5 at 6 decimals is 2500000. *)
Theorem amount_conversion_precision
  (rt : Runtime) (chain : Chain) (p : State) (w : World) (v : Z) :
  (run (validateInputs rt p) w = Return true ->
   parseUnits rt (amount p)
     (if String.eqb (tokenAddress p) Viem.zeroAddress then 18%nat else tokenDecimals p)
     = Some v ->
   submitted (trace (handleMint rt chain p) w) = Some (mintRequest p v)
   /\ submitted (trace (handleClaim rt chain p) w) = Some (claimRequest p v))
  /\ parseUnits rt "1.5" 18 = Some 1500000000000000000%Z
  /\ parseUnits rt "2.5" 6 = Some 2500000%Z.
Proof.
  split; [|split; reflexivity].
  intros Hv Hp. apply validateInputs_passes in Hv as (Ht & _ & _ & Heth & Heq).
  rewrite <- (isZeroAddress_eqb rt p Ht) in Hp.
  unfold mintRequest, claimRequest.
  split; unfold handleMint, handleClaim; with_provider; unfold_js; cbn;
    rewrite Heq; cbn;
    try rewrite parseGwei_50; rewrite Hp; cbn; exec_flow; reflexivity.
Qed.

(** C5 where it fails.  With valid addresses and a positive amount but no
    connected account, the wallet check of [validateInputs] does not stop
    the flow.  When the browser has a provider, [validateInputs] clears
    the error and returns true, and the first thing either flow does with
    the chain is to hand the wallet client a transaction with no account.
    When it has none, [validateInputs] throws before it sets any error,
    and the flow is left by that exception, with no error shown. *)
Theorem validation_accepts_missing_wallet
  (rt : Runtime) (chain : Chain) (p : State) (w : World) (v : Z) :
  connectedAddress p = None ->
  isAddress rt (tokenAddress p) = true ->
  isAddress rt (receiverAddress p) = true ->
  amount_rejected rt (amount p) = false ->
  parseUnits rt (amount p) (if isZeroAddress rt p then 18%nat else tokenDecimals p)
    = Some v ->
  (ethereum rt = true ->
   validateInputs rt p w
   = (Return true, mkWorld (with_error EmptyString (ui w)) (calls w),
      [SetError EmptyString])
   /\ hd_error (net_calls (trace (handleMint rt chain p) w))
      = Some (WriteContract (mintRequest p v))
   /\ hd_error (net_calls (trace (handleClaim rt chain p) w))
      = Some (WriteContract (claimRequest p v))
   /\ write_account (mintRequest p v) = None
   /\ write_account (claimRequest p v) = None)
  /\ (ethereum rt = false ->
      validateInputs rt p w = (Throw ProviderMissing, w, [])
      /\ run (handleMint rt chain p) w = Throw ProviderMissing
      /\ run (handleClaim rt chain p) w = Throw ProviderMissing
      /\ error (final (handleMint rt chain p) w) = EmptyString
      /\ error (final (handleClaim rt chain p) w) = EmptyString
      /\ trace (handleMint rt chain p) w = clearing
      /\ trace (handleClaim rt chain p) w = clearing).
Proof.
  intros Hc Ht Hr Ha Hp.
  destruct (validateInputs_cases rt p)
    as [(_ & _ & _ & Heth & Heq)|[(msg & Hmsg & Heq)|(_ & _ & _ & Heth & Heq)]].
  - split; [intros _ | intros He; congruence].
    split; [apply Heq|]. unfold mintRequest, claimRequest.
    rewrite Hc.
    repeat split; unfold handleMint, handleClaim; with_provider; unfold_js; cbn;
      rewrite Heq; cbn; try rewrite parseGwei_50; rewrite Hp, Hc; cbn;
      exec_flow; reflexivity.
  - exfalso. specialize (Heq w). rewrite validateInputs_outcome in Heq.
    rewrite Ht, Hr, Ha in Heq. cbv zeta in Heq. cbn [negb] in Heq.
    rewrite truthy_empty in Heq. cbn [negb andb] in Heq.
    destruct (ethereum rt); discriminate.
  - split; [intros He; congruence | intros _].
    split; [apply Heq|].
    repeat split; unfold handleMint, handleClaim; unfold_js; cbn; rewrite Heq;
      reflexivity.
Qed.

(* ------------------------------------------------------------------ *)
(** ** Facts about the debounced fetch *)

Section DebounceFacts.

Import Debounce.

Variable checksumOk : string -> bool.

Local Abbreviation valid := (Debounce.valid checksumOk).
Local Abbreviation settled := (Debounce.settled checksumOk).
Local Abbreviation edit := (Debounce.edit checksumOk).
Local Abbreviation run_edits := (Debounce.run_edits checksumOk).

Lemma settled_tame (s : Sched) (t : nat) (a : string) : settled s t a -> tame s.
Proof.
  intros (_ & _ & Hn & _ & Hp). split; [exact Hn|].
  destruct (valid a && (now s <? t + delay)%nat).
  - destruct Hp as (id & Hid & Hp & Hr). right. eexists. rewrite Hp. simpl. auto.
  - now left.
Qed.

Lemma settled_init : settled init 0 EmptyString.
Proof.
  unfold Debounce.settled, Debounce.valid. cbv [Js.truthy]. cbn.
  repeat split; lia.
Qed.

Lemma pending_clear_current (s : Sched) : tame s -> pending (clear_current s) = [].
Proof.
  intros (_ & [Hp | (tm & Hp & Hr & Hid)]); unfold clear_current.
  - destruct (debounceTimerRef s) as [id|]; [|exact Hp].
    destruct (id =? 0)%nat; [exact Hp|]. simpl. now rewrite Hp.
  - rewrite Hr. apply Nat.eqb_neq in Hid. rewrite Hid. simpl. rewrite Hp. simpl.
    now rewrite Nat.eqb_refl.
Qed.

Lemma clear_current_frame (s : Sched) :
  now (clear_current s) = now s
  /\ nextId (clear_current s) = nextId s
  /\ debounceTimerRef (clear_current s) = debounceTimerRef s
  /\ fired (clear_current s) = fired s
  /\ ui_events (clear_current s) = ui_events s
  /\ tokenAddress (clear_current s) = tokenAddress s
  /\ has_cleanup (clear_current s) = has_cleanup s.
Proof.
  unfold clear_current. destruct (debounceTimerRef s) as [id|] eqn:E;
    [|repeat split; assumption].
  destruct (id =? 0)%nat; simpl; repeat split; assumption.
Qed.

Lemma cleanup_frame (s : Sched) :
  now (cleanup s) = now s
  /\ nextId (cleanup s) = nextId s
  /\ fired (cleanup s) = fired s
  /\ ui_events (cleanup s) = ui_events s
  /\ tokenAddress (cleanup s) = tokenAddress s.
Proof.
  unfold cleanup. destruct (has_cleanup s); [|repeat split].
  destruct (clear_current_frame s) as (? & ? & _ & ? & ? & ? & _).
  repeat split; assumption.
Qed.

Lemma tame_clear_current (s : Sched) : tame s -> tame (clear_current s).
Proof.
  intros H. pose proof (pending_clear_current s H) as Hp.
  destruct (clear_current_frame s) as (_ & Hn & _).
  split; [rewrite Hn; apply H | now left].
Qed.

Lemma tame_cleanup (s : Sched) : tame s -> tame (cleanup s).
Proof.
  unfold cleanup. destruct (has_cleanup s); [apply tame_clear_current | auto].
Qed.

Lemma tame_advance (t : nat) (s : Sched) : tame s -> tame (advance t s).
Proof.
  intros (Hn & [Hp | (tm & Hp & Hr & Hid)]); split; simpl; try exact Hn.
  - left. now rewrite Hp.
  - rewrite Hp. simpl. destruct (deadline tm <=? t)%nat; simpl; [now left|].
    right. exists tm. auto.
Qed.

Lemma effect_test (a : string) :
  negb (Js.truthy a) || negb (Viem.isAddress checksumOk a) = negb (valid a).
Proof. unfold Debounce.valid. now rewrite negb_andb. Qed.

(** Time passing keeps the state settled, and fires the timer of the
    last change when it is due. *)
Lemma settled_advance (s : Sched) (t : nat) (a : string) (T : nat) :
  settled s t a ->
  settled (advance T s) t a
  /\ fired (advance T s)
     = (fired s ++ if valid a && (now s <? t + delay)%nat && (t + delay <=? T)%nat
                   then [(t + delay, a)] else [])%list.
Proof.
  intros (Ha & Ht & Hn & Hc & Hp).
  unfold Debounce.settled.
  cbn [advance now nextId has_cleanup tokenAddress pending fired].
  assert (Hmax : (Nat.max (now s) T <? t + delay)%nat
                 = (now s <? t + delay)%nat && negb (t + delay <=? T)%nat).
  { destruct (Nat.ltb_spec (now s) (t + delay)), (Nat.leb_spec (t + delay) T);
      cbn; [apply Nat.ltb_ge | apply Nat.ltb_lt | apply Nat.ltb_ge | apply Nat.ltb_ge];
      lia. }
  rewrite Hmax.
  destruct (valid a); cbn [andb] in *.
  - destruct (now s <? t + delay)%nat; cbn [andb].
    + destruct Hp as (id & Hid & Hp & Hr). rewrite Hp. cbn [filter map deadline].
      destruct (t + delay <=? T)%nat; cbn [negb filter map timer_address deadline].
      * repeat split; try assumption; lia.
      * rewrite app_nil_r. repeat split; try assumption; try lia.
        exists id. cbn [debounceTimerRef]. auto.
    + rewrite Hp. cbn [filter map]. rewrite app_nil_r.
      repeat split; try assumption; lia.
  - rewrite Hp. cbn [filter map]. rewrite app_nil_r.
    repeat split; try assumption; lia.
Qed.

(** After a change of the address the only timer pending is the new
    one, and there is none when the address is empty or invalid. *)
Lemma change_settles (s : Sched) (a : string) :
  tame s ->
  settled (onTokenAddressChange checksumOk a (setTokenAddress a s)) (now s) a
  /\ now (onTokenAddressChange checksumOk a (setTokenAddress a s)) = now s
  /\ fired (onTokenAddressChange checksumOk a (setTokenAddress a s)) = fired s
  /\ ui_events (onTokenAddressChange checksumOk a (setTokenAddress a s))
     = (ui_events s
          ++ if valid a then []
             else [(now s, App.SetBalance None);
                   (now s, App.SetIsLoadingBalance false)])%list.
Proof.
  intros H.
  assert (Ht : tame (cleanup (setTokenAddress a s)))
    by (apply tame_cleanup; exact H).
  pose proof (pending_clear_current _ Ht) as Hp.
  destruct (clear_current_frame (cleanup (setTokenAddress a s)))
    as (Hnow & Hn & _ & Hf & Hu & Ha & _).
  destruct (cleanup_frame (setTokenAddress a s)) as (Hnow' & Hn' & Hf' & Hu' & Ha').
  cbn [setTokenAddress now nextId fired ui_events tokenAddress] in *.
  destruct H as (Hid & _).
  unfold Debounce.settled, onTokenAddressChange, effect. rewrite effect_test.
  destruct (valid a); cbn [negb now nextId pending debounceTimerRef has_cleanup fired
                             ui_events tokenAddress andb];
    rewrite ?Hp, ?Hnow, ?Hn, ?Hf, ?Hu, ?Ha, ?Hnow', ?Hn', ?Hf', ?Hu', ?Ha'.
  - assert (Hlt : (now s <? now s + delay)%nat = true)
      by (apply Nat.ltb_lt; unfold delay; lia).
    rewrite Hlt, app_nil_r. repeat split; try lia.
    exists (nextId s). split; [lia|]. split; reflexivity.
  - repeat split; try lia.
Qed.

(** An edit: nothing but the passing of time when the address is the one
    in the field, a change otherwise. *)
Lemma edit_settles (s : Sched) (t0 : nat) (a0 : string) (t : nat) (a : string) :
  settled s t0 a0 -> now s <= t ->
  settled (edit s (t, a)) (if String.eqb a0 a then t0 else t) a
  /\ now (edit s (t, a)) = t
  /\ fired (edit s (t, a))
     = (fired s ++ if valid a0 && (now s <? t0 + delay)%nat && (t0 + delay <=? t)%nat
                   then [(t0 + delay, a0)] else [])%list
  /\ ui_events (edit s (t, a))
     = (ui_events s
          ++ if String.eqb a0 a then []
             else if valid a then []
                  else [(t, App.SetBalance None);
                        (t, App.SetIsLoadingBalance false)])%list.
Proof.
  intros Hs Ht.
  destruct (settled_advance s t0 a0 t Hs) as (Hs1 & Hf1).
  assert (Hnow : now (advance t s) = t) by (cbn; lia).
  assert (Ha1 : tokenAddress (advance t s) = a0) by apply Hs1.
  unfold Debounce.edit. cbn [fst snd]. rewrite Ha1.
  destruct (String.eqb_spec a0 a) as [<-|Hne].
  - rewrite app_nil_r. repeat split; try assumption; apply Hs1.
  - destruct (change_settles (advance t s) a (settled_tame _ _ _ Hs1))
      as (Hs2 & Hn2 & Hf2 & Hu2).
    rewrite Hnow in Hs2, Hn2, Hu2.
    repeat split; try assumption; try apply Hs2.
    now rewrite Hf2.
Qed.





End DebounceFacts.


(* ------------------------------------------------------------------ *)
(** ** The statements at concrete inputs *)

Lemma fetchTokenDecimals_spec_witness :
  (run (fetchTokenDecimals Reference.runtime Examples.healthy "0x12")
     (Examples.start Examples.half_typed) = Return 18%nat
   /\ net_calls (trace (fetchTokenDecimals Reference.runtime Examples.healthy "0x12")
                   (Examples.start Examples.half_typed)) = [])
  /\ run (fetchTokenDecimals Reference.runtime Examples.healthy Examples.token)
       (Examples.start Examples.token_request) = Return 6%nat
  /\ (run (fetchTokenDecimals Reference.runtime Examples.unreadable Examples.token)
        (Examples.start Examples.token_request) = Return 18%nat
      /\ warned (trace (fetchTokenDecimals Reference.runtime Examples.unreadable
                          Examples.token)
                   (Examples.start Examples.token_request))).
Proof.
  split; [|split].
  - destruct (fetchTokenDecimals_spec Reference.runtime Examples.healthy "0x12"
                (Examples.start Examples.half_typed)) as (H & _).
    exact (H (or_introl eq_refl)).
  - destruct (fetchTokenDecimals_spec Reference.runtime Examples.healthy Examples.token
                (Examples.start Examples.token_request)) as (_ & H & _).
    destruct (H eq_refl ltac:(discriminate)) as (_ & Hs & _).
    exact (proj1 (Hs 6%N eq_refl)).
  - destruct (fetchTokenDecimals_spec Reference.runtime Examples.unreadable Examples.token
                (Examples.start Examples.token_request)) as (_ & H & _).
    destruct (H eq_refl ltac:(discriminate)) as (_ & _ & Hf).
    destruct (Hf eq_refl) as (Hr & _ & Hw). split; assumption.
Defined.

(** C1 where it fails.  When the query of the native balance throws,
    [fetchBalance] on the zero address never reaches [setTokenDecimals(18)]:
    it makes the one query of the faucet's native balance and leaves the
    decimals as they were, 6 here, for the native asset. *)
Lemma fetchBalance_native_failure_keeps_decimals :
  net_calls (trace (fetchBalance Reference.runtime Examples.unreadable Viem.zeroAddress)
               (Examples.start Examples.native_request))
  = [GetBalance faucetAddress]
  /\ tokenDecimals (final (fetchBalance Reference.runtime Examples.unreadable
                             Viem.zeroAddress)
                      (Examples.start Examples.native_request)) = 6%nat
  /\ tokenDecimals (final (fetchBalance Reference.runtime Examples.unreadable
                             Viem.zeroAddress)
                      (Examples.start Examples.native_request)) <> 18%nat.
Proof. vm_compute. repeat split. discriminate. Qed.

Lemma fetchBalance_reads_faucet_holdings_witness :
  (net_calls (trace (fetchBalance Reference.runtime Examples.healthy Examples.token)
                (Examples.start Examples.token_request))
   = [ReadContract (decimalsRequest Examples.token);
      ReadContract (tokenBalanceRequest Examples.token)]
   /\ balance (final (fetchBalance Reference.runtime Examples.healthy Examples.token)
                 (Examples.start Examples.token_request)) = Some 1000000%N)
  /\ (net_calls (trace (fetchBalance Reference.runtime Examples.healthy Viem.zeroAddress)
                   (Examples.start Examples.native_request))
      = [GetBalance faucetAddress]
      /\ balance (final (fetchBalance Reference.runtime Examples.healthy Viem.zeroAddress)
                    (Examples.start Examples.native_request))
         = Some 5000000000000000000%N
      /\ tokenDecimals (final (fetchBalance Reference.runtime Examples.healthy
                                 Viem.zeroAddress)
                          (Examples.start Examples.native_request)) = 18%nat).
Proof.
  split.
  - destruct (fetchBalance_reads_faucet_holdings Reference.runtime Examples.healthy
                Examples.token (Examples.start Examples.token_request)) as (H & _).
    destruct (H eq_refl ltac:(discriminate)) as (Hn & _ & Hb).
    split; [exact Hn | exact (Hb _ eq_refl)].
  - destruct (fetchBalance_reads_faucet_holdings Reference.runtime Examples.healthy
                Viem.zeroAddress (Examples.start Examples.native_request)) as (_ & H).
    destruct (H eq_refl) as (Hn & Hb).
    split; [exact Hn | exact (Hb _ eq_refl)].
Defined.

(** C7 as the specification states it fails: the balance left by an
    invalid address and the balance left by a failed fetch are the same
    value, [null]. *)
Lemma invalid_and_failed_balance_coincide :
  balance (final (fetchBalance Reference.runtime Examples.healthy "0x12")
             (Examples.start Examples.half_typed))
  = balance (final (fetchBalance Reference.runtime Examples.unreadable Examples.token)
               (Examples.start Examples.half_typed))
  /\ balance (final (fetchBalance Reference.runtime Examples.healthy "0x12")
                (Examples.start Examples.half_typed)) = None
  /\ balance (ui (Examples.start Examples.half_typed)) = Some 42%N.
Proof. vm_compute. repeat split. Qed.

Lemma fetchBalance_null_balance_witness :
  balance (final (fetchBalance Reference.runtime Examples.healthy "0x12")
             (Examples.start Examples.half_typed)) = None
  /\ balance (final (fetchBalance Reference.runtime Examples.unreadable Viem.zeroAddress)
                (Examples.start Examples.half_typed)) = None
  /\ balance (final (fetchBalance Reference.runtime Examples.unreadable Examples.token)
                (Examples.start Examples.half_typed)) = None.
Proof.
  split; [|split].
  - destruct (fetchBalance_null_balance Reference.runtime Examples.healthy "0x12"
                (Examples.start Examples.half_typed)) as (H & _).
    exact (proj1 (H eq_refl)).
  - destruct (fetchBalance_null_balance Reference.runtime Examples.unreadable
                Viem.zeroAddress (Examples.start Examples.half_typed)) as (_ & H & _).
    exact (proj1 (H eq_refl eq_refl)).
  - destruct (fetchBalance_null_balance Reference.runtime Examples.unreadable
                Examples.token (Examples.start Examples.half_typed)) as (_ & _ & H).
    exact (proj1 (H eq_refl ltac:(discriminate) eq_refl)).
Defined.

Lemma handlers_clear_before_validation_witness :
  run (validateInputs Reference.runtime Examples.half_typed)
    (Examples.start Examples.half_typed) = Return false
  /\ txHash (ui (Examples.start Examples.half_typed)) = "0xfeed"
  /\ txHash (final (handleMint Reference.runtime Examples.healthy Examples.half_typed)
               (Examples.start Examples.half_typed)) = EmptyString
  /\ balance (final (handleMint Reference.runtime Examples.healthy Examples.half_typed)
                (Examples.start Examples.half_typed)) = Some 42%N.
Proof.
  split; [reflexivity|]. split; [reflexivity|].
  destruct (handlers_clear_before_validation Reference.runtime Examples.healthy
              Examples.half_typed (Examples.start Examples.half_typed)) as (_ & _ & H).
  destruct (H eq_refl _ (or_introl eq_refl)) as (_ & _ & Hh & _ & _ & Hb & _).
  split; [exact Hh | exact Hb].
Defined.

Lemma failed_submission_sets_no_partial_state_witness :
  error (final (handleMint Reference.runtime Examples.rejecting Examples.token_request)
           (Examples.start Examples.token_request)) = "Transaction fail"
  /\ txHash (final (handleMint Reference.runtime Examples.rejecting Examples.token_request)
               (Examples.start Examples.token_request)) = EmptyString
  /\ success (final (handleClaim Reference.runtime Examples.rejecting
                       Examples.token_request)
                (Examples.start Examples.token_request)) = EmptyString.
Proof.
  destruct (failed_submission_sets_no_partial_state Reference.runtime Examples.rejecting
              Examples.token_request (Examples.start Examples.token_request)
              2500000%Z eq_refl eq_refl)
    as (Hm & Hc).
  destruct (Hm eq_refl) as (_ & He & Hh & _).
  destruct (Hc eq_refl) as (_ & _ & _ & _ & Hs & _).
  split; [exact He|]. split; [exact Hh | exact Hs].
Defined.

(** C6 as the specification states it fails: when the wait for the
    receipt throws, [handleMint] does not throw; it returns, with the
    error set by its own [catch]. *)
Lemma handleMint_catches_receipt_failure :
  waitForTransactionReceipt Examples.unconfirmed 1 "0xabc" = false
  /\ net_calls (trace (handleMint Reference.runtime Examples.unconfirmed
                         Examples.token_request)
                  (Examples.start Examples.token_request))
     = [WriteContract (mintRequest Examples.token_request 2500000%Z);
        WaitForTransactionReceipt "0xabc"]
  /\ run (handleMint Reference.runtime Examples.unconfirmed Examples.token_request)
       (Examples.start Examples.token_request) = Return tt
  /\ run (handleMint Reference.runtime Examples.unconfirmed Examples.token_request)
       (Examples.start Examples.token_request) <> Throw (ReceiptFailed "0xabc")
  /\ error (final (handleMint Reference.runtime Examples.unconfirmed
                     Examples.token_request)
              (Examples.start Examples.token_request)) = "Transaction fail".
Proof. vm_compute. repeat split. discriminate. Qed.

Lemma receipt_failure_is_caught_witness :
  run (handleMint Reference.runtime Examples.unconfirmed Examples.token_request)
    (Examples.start Examples.token_request) = Return tt
  /\ run (handleClaim Reference.runtime Examples.unconfirmed Examples.native_request)
       (Examples.start Examples.native_request) = Return tt.
Proof.
  split.
  - destruct (receipt_failure_is_caught Reference.runtime Examples.unconfirmed
                Examples.token_request (Examples.start Examples.token_request)
                2500000%Z "0xabc" eq_refl eq_refl eq_refl eq_refl) as (H & _).
    exact (proj1 (H eq_refl)).
  - destruct (receipt_failure_is_caught Reference.runtime Examples.unconfirmed
                Examples.native_request (Examples.start Examples.native_request)
                1500000000000000000%Z "0xabc" eq_refl eq_refl eq_refl eq_refl)
      as (_ & H).
    exact (proj1 (H eq_refl)).
Defined.

Lemma amount_conversion_precision_witness :
  submitted (trace (handleMint Reference.runtime Examples.healthy Examples.native_request)
               (Examples.start Examples.native_request))
  = Some (mintRequest Examples.native_request 1500000000000000000%Z)
  /\ submitted (trace (handleClaim Reference.runtime Examples.healthy
                         Examples.token_request)
                  (Examples.start Examples.token_request))
     = Some (claimRequest Examples.token_request 2500000%Z).
Proof.
  split.
  - destruct (amount_conversion_precision Reference.runtime Examples.healthy
                Examples.native_request (Examples.start Examples.native_request)
                1500000000000000000%Z) as (H & _).
    exact (proj1 (H eq_refl eq_refl)).
  - destruct (amount_conversion_precision Reference.runtime Examples.healthy
                Examples.token_request (Examples.start Examples.token_request)
                2500000%Z) as (H & _).
    exact (proj2 (H eq_refl eq_refl)).
Defined.



Lemma validation_accepts_missing_wallet_witness :
  (hd_error (net_calls (trace (handleMint Reference.runtime Examples.rejecting
                                 Examples.no_wallet)
                          (Examples.start Examples.no_wallet)))
   = Some (WriteContract (mintRequest Examples.no_wallet 1000000000000000000%Z))
   /\ write_account (mintRequest Examples.no_wallet 1000000000000000000%Z) = None)
  /\ (run (handleMint Examples.no_provider Examples.rejecting Examples.no_wallet)
         (Examples.start Examples.no_wallet) = Throw ProviderMissing
      /\ error (final (handleMint Examples.no_provider Examples.rejecting
                         Examples.no_wallet)
                  (Examples.start Examples.no_wallet)) = EmptyString).
Proof.
  split.
  - destruct (validation_accepts_missing_wallet Reference.runtime Examples.rejecting
                Examples.no_wallet (Examples.start Examples.no_wallet)
                1000000000000000000%Z eq_refl eq_refl eq_refl eq_refl eq_refl)
      as (H & _).
    destruct (H eq_refl) as (_ & Hm & _ & Ha & _).
    split; [exact Hm | exact Ha].
  - destruct (validation_accepts_missing_wallet Examples.no_provider Examples.rejecting
                Examples.no_wallet (Examples.start Examples.no_wallet)
                1000000000000000000%Z eq_refl eq_refl eq_refl eq_refl eq_refl)
      as (_ & H).
    destruct (H eq_refl) as (_ & Hr & _ & He & _).
    split; [exact Hr | exact He].
Defined.

(* ------------------------------------------------------------------ *)
(** ** The helpers of the page *)

Lemma substring_length (s : string) :
  forall n m, n + m <= String.length s -> String.length (substring n m s) = m.
Proof.
  induction s as [|c r IH]; intros [|n] [|m] H; simpl in *; try lia; try reflexivity.
  - f_equal. apply (IH 0 m). lia.
  - apply (IH n 0). lia.
  - apply (IH n (S m)). lia.
Qed.

Lemma substring_cut (s : string) :
  forall n, n <= String.length s ->
    s = substring 0 n s ++ substring n (String.length s - n) s.
Proof.
  induction s as [|c r IH]; intros [|n] H; simpl in *; try lia; try reflexivity.
  - f_equal. specialize (IH 0 (Nat.le_0_l _)).
    rewrite Nat.sub_0_r in IH. destruct r; [reflexivity|]. simpl in *. exact IH.
  - f_equal. apply IH. lia.
Qed.

Lemma substring_all (s : string) : substring 0 (String.length s) s = s.
Proof. induction s; simpl; [reflexivity | now rewrite IHs]. Qed.

Lemma substring_shift (s : string) :
  forall n k m, n + k + m <= String.length s ->
    substring k m (substring n (String.length s - n) s) = substring (n + k) m s.
Proof.
  induction s as [|c r IH]; intros n k m H.
  - simpl in H. assert (n = 0) as -> by lia. assert (k = 0) as -> by lia.
    assert (m = 0) as -> by lia. reflexivity.
  - destruct n as [|n].
    + rewrite Nat.sub_0_r, substring_all. reflexivity.
    + simpl in *. apply IH. lia.
Qed.

Lemma append_length (s t : string) :
  String.length (s ++ t) = String.length s + String.length t.
Proof. induction s; simpl; [reflexivity | now rewrite IHs]. Qed.

(** X1.  [formatTxHash] gives back a hash of at most 10 characters as it
    is (the empty string for a value that is not a string); of a longer
    hash it keeps the first 6 and the last 4 characters, with three dots
    in between, so that the text shown has at most 13 characters. *)
Theorem formatTxHash_keeps_both_ends (h : string) :
  formatTxHash None = EmptyString
  /\ String.length (formatTxHash (Some h)) <= 13
  /\ (String.length h <= 10 -> formatTxHash (Some h) = h)
  /\ (10 < String.length h ->
      exists first middle last,
        h = first ++ middle ++ last
        /\ String.length first = 6 /\ String.length last = 4
        /\ formatTxHash (Some h) = first ++ "..." ++ last).
Proof.
  assert (Hlong : 10 < String.length h ->
            exists first middle last,
              h = first ++ middle ++ last
              /\ String.length first = 6 /\ String.length last = 4
              /\ formatTxHash (Some h) = first ++ "..." ++ last).
  { intros Hl. unfold formatTxHash.
    destruct h as [|c r]; [simpl in Hl; lia|].
    change (Js.truthy (String c r)) with true. cbn [negb].
    apply Nat.leb_gt in Hl as Hl'. rewrite Hl'.
    set (s := String c r) in *.
    exists (substring 0 6 s), (substring 6 (String.length s - 10) s),
      (substring (String.length s - 4) 4 s).
    split; [|split; [|split]].
    - rewrite (substring_cut s 6) at 1 by lia. f_equal.
      set (u := substring 6 (String.length s - 6) s).
      assert (Hu : String.length u = String.length s - 6)
        by (apply substring_length; lia).
      rewrite (substring_cut u (String.length s - 10)) by lia.
      unfold u at 1 3. rewrite !substring_shift by lia.
      rewrite Hu. f_equal.
      replace (6 + (String.length s - 10)) with (String.length s - 4) by lia.
      f_equal. lia.
    - apply substring_length. lia.
    - apply substring_length. lia.
    - reflexivity. }
  split; [reflexivity|]. split; [|split; [|exact Hlong]].
  - destruct (Nat.le_gt_cases (String.length h) 10) as [Hs|Hl].
    + unfold formatTxHash. destruct (negb (Js.truthy h)); [simpl; lia|].
      apply Nat.leb_le in Hs as Hs'. rewrite Hs'. lia.
    + destruct (Hlong Hl) as (f & m & l & _ & Hf & Hl4 & ->).
      rewrite !append_length, Hf, Hl4. simpl. lia.
  - intros Hs. unfold formatTxHash. destruct h as [|c r]; [reflexivity|].
    change (Js.truthy (String c r)) with true. cbn [negb].
    apply Nat.leb_le in Hs. now rewrite Hs.
Qed.

(** X2.  [getExplorerUrl] gives the empty string for the empty hash only,
    and two hashes get the same link only when they are the same hash. *)
Theorem getExplorerUrl_injective (h1 h2 : string) :
  String.eqb (getExplorerUrl h1) EmptyString = String.eqb h1 EmptyString
  /\ String.eqb (getExplorerUrl h1) (getExplorerUrl h2) = String.eqb h1 h2.
Proof.
  unfold getExplorerUrl, Js.truthy. split.
  - destruct h1; reflexivity.
  - destruct h1 as [|c1 r1], h2 as [|c2 r2]; reflexivity.
Qed.

Lemma zero_flag_is_eqb (rt : Runtime) (p : State) :
  isZeroAddress rt p = String.eqb (tokenAddress p) Viem.zeroAddress.
Proof.
  destruct (isAddress rt (tokenAddress p)) eqn:Ha.
  - now apply isZeroAddress_eqb.
  - unfold isZeroAddress. rewrite Ha, andb_false_r. simpl.
    destruct (String.eqb_spec (tokenAddress p) Viem.zeroAddress) as [He|]; [|reflexivity].
    rewrite He in Ha. rewrite isAddress_zeroAddress' in Ha. discriminate.
Qed.

(** X3.  The flag [isZeroAddress] of a render is set exactly when the
    token address is the zero address as viem writes it: the comparison
    in lower case adds no other string. *)
Theorem isZeroAddress_exact (rt : Runtime) (p : State) :
  isZeroAddress rt p = String.eqb (tokenAddress p) Viem.zeroAddress.
Proof.
  destruct (isAddress rt (tokenAddress p)) eqn:Ha.
  - now apply isZeroAddress_eqb.
  - unfold isZeroAddress. rewrite Ha, andb_false_r. simpl.
    destruct (String.eqb_spec (tokenAddress p) Viem.zeroAddress) as [He|]; [|reflexivity].
    rewrite He in Ha. rewrite isAddress_zeroAddress' in Ha. discriminate.
Qed.

(** X4.  [validateInputs] reports the first check that fails, in the
    order token address, receiver address, amount, with one call of
    [setError].  When none fails it builds the wallet client: with an
    injected provider it clears the error and accepts the inputs; without
    one it throws before any [setError].  It makes no call to the chain
    and never reports a missing wallet. *)
Theorem validateInputs_verdict (rt : Runtime) (p : State) (w : World) :
  (validateInputs rt p w
   = let msg := if negb (isAddress rt (tokenAddress p)) then "请输入有效的代币地址"
                else if negb (isAddress rt (receiverAddress p))
                     then "请输入有效的接收地址"
                     else if amount_rejected rt (amount p) then "请输入有效的数量"
                          else EmptyString in
     if negb (Js.truthy msg) && negb (ethereum rt)
     then (Throw ProviderMissing, w, [])
     else (Return (negb (Js.truthy msg)), mkWorld (with_error msg (ui w)) (calls w),
           [SetError msg]))
  /\ ~ In (SetError "请先连接钱包") (trace (validateInputs rt p) w)
  /\ net_calls (trace (validateInputs rt p) w) = [].
Proof.
  split; [apply validateInputs_outcome|].
  unfold trace. rewrite validateInputs_outcome. cbv zeta.
  destruct (negb (isAddress rt (tokenAddress p)));
    [|destruct (negb (isAddress rt (receiverAddress p)));
      [|destruct (amount_rejected rt (amount p))]];
    rewrite ?truthy_cons, ?truthy_empty; cbn [negb andb];
    try destruct (ethereum rt); cbn;
    (split; [intros H; repeat destruct H as [H|H]; try discriminate; exact H
            |reflexivity]).
Qed.

(** ** What the read path leaves alone *)

(** X5.  Resolving the decimals and fetching the balance change nothing
    but the balance, the loading flag and the decimals: the form fields
    and the fields of the transaction flows (error, success, hash, type,
    in-flight flags) are as before.  [fetchTokenDecimals] leaves the
    balance and the loading flag as well, and the value it returns is the
    one it has stored. *)
Theorem read_path_frame (rt : Runtime) (chain : Chain) (a : string) (w : World) :
  (same_form (ui w) (final (fetchTokenDecimals rt chain a) w)
   /\ same_flow (ui w) (final (fetchTokenDecimals rt chain a) w)
   /\ balance (final (fetchTokenDecimals rt chain a) w) = balance (ui w)
   /\ isLoadingBalance (final (fetchTokenDecimals rt chain a) w)
      = isLoadingBalance (ui w)
   /\ run (fetchTokenDecimals rt chain a) w
      = Return (tokenDecimals (final (fetchTokenDecimals rt chain a) w)))
  /\ (same_form (ui w) (final (fetchBalance rt chain a) w)
      /\ same_flow (ui w) (final (fetchBalance rt chain a) w)).
Proof.
  unfold same_form, same_flow. split.
  - unfold final, run.
    destruct (isAddress rt a) eqn:Ha.
    + destruct (String.eqb_spec a Viem.zeroAddress) as [He|Hne].
      * rewrite fetchTokenDecimals_default by (now right). cbn. repeat split.
      * rewrite (fetchTokenDecimals_query _ _ _ _ Ha Hne).
        destruct (readContract _ _ _); cbn; repeat split.
    + rewrite fetchTokenDecimals_default by (now left). cbn. repeat split.
  - destruct (isAddress rt a) eqn:Ha.
    + destruct (String.eqb_spec a Viem.zeroAddress) as [->|Hne].
      * exec_native; repeat split.
      * exec_token Ha Hne; repeat split.
    + exec_invalid Ha. repeat split.
Qed.

(** ** The flows, beyond their failures *)

Lemma fetchBalance_keeps (rt : Runtime) (chain : Chain) (a : string) (w : World) :
  same_form (ui w) (final (fetchBalance rt chain a) w)
  /\ same_flow (ui w) (final (fetchBalance rt chain a) w).
Proof.
  unfold same_form, same_flow.
  destruct (isAddress rt a) eqn:Ha.
  - destruct (String.eqb_spec a Viem.zeroAddress) as [->|Hne].
    + exec_native; repeat split.
    + exec_token Ha Hne; repeat split.
  - exec_invalid Ha. repeat split.
Qed.

Lemma fetchBalance_calls_while
  (rt : Runtime) (chain : Chain) (a : string) (w : World) (s0 : State) :
  buttons_disabled s0 = true ->
  calls_while buttons_disabled s0 (trace (fetchBalance rt chain a) w) = true.
Proof.
  unfold buttons_disabled. intros H.
  destruct (isAddress rt a) eqn:Ha.
  - destruct (String.eqb_spec a Viem.zeroAddress) as [->|Hne].
    + exec_native; rewrite ?H; reflexivity.
    + exec_token Ha Hne; rewrite ?H; reflexivity.
  - exec_invalid Ha. reflexivity.
Qed.

Ltac know_fetchBalance :=
  match goal with
  | |- context [fetchBalance ?rt ?ch ?a ?w] =>
      let Hr := fresh "Hret" in
      let Hk := fresh "Hkeep" in
      let Hc := fresh "Hcalls" in
      pose proof (fetchBalance_returns rt ch a w) as Hr;
      pose proof (fetchBalance_keeps rt ch a w) as Hk;
      pose proof (fun s0 => fetchBalance_calls_while rt ch a w s0) as Hc;
      unfold run, final, trace, same_form, same_flow in Hr, Hk, Hc;
      destruct (fetchBalance rt ch a w) as [[? ?] ?];
      cbn in Hr, Hk, Hc; subst; cbn
  end.

Ltac exec_flow' := repeat (first [split_if | know_fetchBalance]; cbn).

Ltac enter_flow Heq :=
  unfold handleMint, handleClaim; with_provider; unfold_js; cbn; rewrite Heq; cbn;
  try rewrite parseGwei_50.

(** X6.  When the transaction is submitted and confirmed, the handler
    records the hash, the type and the success message, waits for the
    receipt and then fetches the balance of the token address of its
    render exactly once, as its last action before it clears the in-flight
    flag; the recorded fields and an empty error are what it leaves. *)
Theorem confirmed_submission_refreshes_once
  (rt : Runtime) (chain : Chain) (p : State) (w : World) (v : Z) (hash : string) :
  run (validateInputs rt p) w = Return true ->
  parseUnits rt (amount p) (if isZeroAddress rt p then 18%nat else tokenDecimals p)
    = Some v ->
  Js.truthy hash = true ->
  waitForTransactionReceipt chain (S (calls w)) hash = true ->
  (writeContract chain (calls w) (mintRequest p v) = Some hash ->
   let recorded :=
     mkWorld
       (with_success "Mint成功！"
          (with_txType "mint"
             (with_txHash hash
                (with_isMinting true (with_error EmptyString (ui (cleared w)))))))
       (S (S (calls w))) in
   trace (handleMint rt chain p) w
   = (clearing
        ++ [SetError EmptyString; SetIsMinting true;
            Net (WriteContract (mintRequest p v));
            SetTxHash hash; SetTxType "mint"; SetSuccess "Mint成功！";
            ConsoleLog "mint:"; Net (WaitForTransactionReceipt hash)]
        ++ trace (fetchBalance rt chain (tokenAddress p)) recorded
        ++ [SetIsMinting false])%list
   /\ final (handleMint rt chain p) w
      = with_isMinting false (final (fetchBalance rt chain (tokenAddress p)) recorded)
   /\ txHash (final (handleMint rt chain p) w) = hash
   /\ txType (final (handleMint rt chain p) w) = "mint"
   /\ success (final (handleMint rt chain p) w) = "Mint成功！"
   /\ error (final (handleMint rt chain p) w) = EmptyString
   /\ isMinting (final (handleMint rt chain p) w) = false)
  /\ (writeContract chain (calls w) (claimRequest p v) = Some hash ->
      let recorded :=
        mkWorld
          (with_success "Claim成功！"
             (with_txType "claim"
                (with_txHash hash
                   (with_isClaiming true (with_error EmptyString (ui (cleared w)))))))
          (S (S (calls w))) in
      trace (handleClaim rt chain p) w
      = (clearing
           ++ [SetError EmptyString; SetIsClaiming true;
               Net (WriteContract (claimRequest p v));
               SetTxHash hash; SetTxType "claim"; SetSuccess "Claim成功！";
               ConsoleLog "claim:"; Net (WaitForTransactionReceipt hash)]
           ++ trace (fetchBalance rt chain (tokenAddress p)) recorded
           ++ [SetIsClaiming false])%list
      /\ final (handleClaim rt chain p) w
         = with_isClaiming false
             (final (fetchBalance rt chain (tokenAddress p)) recorded)
      /\ txHash (final (handleClaim rt chain p) w) = hash
      /\ txType (final (handleClaim rt chain p) w) = "claim"
      /\ success (final (handleClaim rt chain p) w) = "Claim成功！"
      /\ error (final (handleClaim rt chain p) w) = EmptyString
      /\ isClaiming (final (handleClaim rt chain p) w) = false).
Proof.
  intros Hv Hp Hh Hwait.
  apply validateInputs_passes in Hv as (_ & _ & _ & Heth & Heq).
  unfold mintRequest, claimRequest, cleared, clearing.
  split; intros Hw; cbv zeta; enter_flow Heq; rewrite Hp; cbn; rewrite Hw; cbn;
    rewrite Hh; cbn; rewrite Hwait; cbn; know_fetchBalance;
    destruct Hkeep as ((_ & _ & _ & _) & (_ & _ & He & Hs & Hx & Ht));
    repeat split; assumption.
Qed.

Arguments App.successPanel : simpl never.
Arguments App.formatTxHash : simpl never.
Arguments App.getExplorerUrl : simpl never.

Lemma successPanel_ext (s : State) (a b : string) :
  success s = a -> txHash s = b ->
  successPanel s
  = if Js.truthy a && Js.truthy b
    then Some (mkPanel a (getExplorerUrl b) (formatTxHash (Some b)))
    else None.
Proof. intros <- <-. reflexivity. Qed.

Ltac panel :=
  erewrite successPanel_ext by (cbn; first [eassumption | reflexivity]);
  rewrite ?truthy_empty, ?truthy_cons; cbn; reflexivity.

(** X7.  After a handler has run, the message with the link to the
    transaction is on the page exactly when validation passed, the amount
    was converted, and the wallet client answered the submission with a
    non-empty hash; it then carries the success text of the flow, the
    explorer link of that hash and the shortened hash, whether or not the
    confirmation and the refresh of the balance went well. *)
Theorem successPanel_after_flow (rt : Runtime) (chain : Chain) (p : State) (w : World) :
  successPanel (final (handleMint rt chain p) w)
  = match run (validateInputs rt p) w,
          parseUnits rt (amount p)
            (if isZeroAddress rt p then 18%nat else tokenDecimals p) with
    | Return true, Some v =>
        match writeContract chain (calls w) (mintRequest p v) with
        | Some hash =>
            if Js.truthy hash
            then Some (mkPanel "Mint成功！" (getExplorerUrl hash)
                         (formatTxHash (Some hash)))
            else None
        | None => None
        end
    | _, _ => None
    end
  /\ successPanel (final (handleClaim rt chain p) w)
     = match run (validateInputs rt p) w,
             parseUnits rt (amount p)
               (if isZeroAddress rt p then 18%nat else tokenDecimals p) with
       | Return true, Some v =>
           match writeContract chain (calls w) (claimRequest p v) with
           | Some hash =>
               if Js.truthy hash
               then Some (mkPanel "Claim成功！" (getExplorerUrl hash)
                            (formatTxHash (Some hash)))
               else None
           | None => None
           end
       | _, _ => None
       end.
Proof.
  unfold mintRequest, claimRequest.
  destruct (validateInputs_cases rt p)
    as [(_ & _ & _ & Heth & Heq)|[(msg & _ & Heq)|(_ & _ & _ & _ & Heq)]];
    split; unfold run at 1; rewrite Heq; cbn [fst];
    enter_flow Heq; try panel;
    (destruct (parseUnits rt (amount p) _); cbn; [|panel]);
    (destruct (writeContract chain (calls w) _) as [hash|]; cbn; [|panel]);
    (destruct hash as [|c r];
       [rewrite truthy_empty; cbn; panel | rewrite !truthy_cons; cbn]);
    exec_flow';
    try (destruct Hkeep as (_ & (_ & _ & _ & Hs & Hx & _)));
    panel.
Qed.

(** X8.  The preview under the amount field and the submission agree.
    Once validation has passed, either the amount converts, the preview
    shows the converted amount and that amount is what both flows submit;
    or the conversion throws, the preview shows the invalid-amount marker,
    and both flows end with the generic failure message without any call
    to the chain. *)
Theorem preview_matches_submission
  (rt : Runtime) (chain : Chain) (p : State) (w : World) :
  run (validateInputs rt p) w = Return true ->
  match parseUnits rt (amount p)
          (if isZeroAddress rt p then 18%nat else tokenDecimals p) with
  | Some v =>
      amountPreview rt p = Some (Js.show_Z v)
      /\ submitted (trace (handleMint rt chain p) w) = Some (mintRequest p v)
      /\ submitted (trace (handleClaim rt chain p) w) = Some (claimRequest p v)
  | None =>
      amountPreview rt p = Some "无效数量"
      /\ net_calls (trace (handleMint rt chain p) w) = []
      /\ net_calls (trace (handleClaim rt chain p) w) = []
      /\ error (final (handleMint rt chain p) w) = "Transaction fail"
      /\ error (final (handleClaim rt chain p) w) = "Transaction fail"
      /\ successPanel (final (handleMint rt chain p) w) = None
      /\ successPanel (final (handleClaim rt chain p) w) = None
  end.
Proof.
  intros Hv. apply validateInputs_passes in Hv as (Ht & _ & Ha & Heth & Heq).
  assert (Hpre : Js.truthy (amount p) && Js.truthy (tokenAddress p)
                 && isAddress rt (tokenAddress p) = true).
  { rewrite Ht, (isAddress_nonempty _ _ Ht).
    unfold amount_rejected in Ha. destruct (Js.truthy (amount p)); [reflexivity|].
    discriminate. }
  unfold amountPreview. rewrite Hpre. unfold mintRequest, claimRequest.
  destruct (parseUnits rt (amount p) _) eqn:Hp.
  - split; [reflexivity|].
    split; enter_flow Heq; rewrite Hp; cbn; exec_flow'; reflexivity.
  - split; [reflexivity|].
    repeat split; enter_flow Heq; rewrite Hp; cbn; try reflexivity; panel.
Qed.

Lemma calls_while_quiet (flag : State -> bool) (t : list Event) :
  forall s, net_calls t = [] -> calls_while flag s t = true.
Proof.
  induction t as [|e t IH]; intros s H; [reflexivity|].
  destruct e; simpl in *; try (apply IH; exact H). discriminate.
Qed.

Lemma calls_while_then_quiet (flag : State -> bool) (l t : list Event) :
  forall s, calls_while flag s l = true -> net_calls t = [] ->
            calls_while flag s (l ++ t) = true.
Proof.
  induction l as [|e l IH]; intros s Hl Ht; simpl.
  - now apply calls_while_quiet.
  - destruct e; simpl in *; try (apply IH; assumption).
    apply andb_prop in Hl as [-> Hl]. simpl. now apply IH.
Qed.

(** X9.  A handler returns unless [validateInputs] throws: what is thrown
    after validation is caught, and what validation throws (it runs
    outside the [try]) leaves the handler.  Every call a handler makes to
    the chain is made while the buttons are disabled, and when validation
    has passed the handler ends with its in-flight flag cleared. *)
Theorem flows_hold_the_buttons (rt : Runtime) (chain : Chain) (p : State) (w : World) :
  (run (handleMint rt chain p) w
   = match run (validateInputs rt p) w with
     | Return _ => Return tt
     | Throw e => Throw e
     end
   /\ run (handleClaim rt chain p) w
      = match run (validateInputs rt p) w with
        | Return _ => Return tt
        | Throw e => Throw e
        end)
  /\ calls_while buttons_disabled (ui w) (trace (handleMint rt chain p) w) = true
  /\ calls_while buttons_disabled (ui w) (trace (handleClaim rt chain p) w) = true
  /\ (run (validateInputs rt p) w = Return true ->
      isMinting (final (handleMint rt chain p) w) = false
      /\ isClaiming (final (handleClaim rt chain p) w) = false).
Proof.
  split; [apply handlers_settle|].
  destruct (validateInputs_cases rt p)
    as [(_ & _ & _ & Heth & Heq)|[(msg & _ & Heq)|(_ & _ & _ & _ & Heq)]].
  - split; [|split; [|intros _; split]];
      enter_flow Heq; exec_flow'; cbv [buttons_disabled]; cbn;
      rewrite ?orb_true_r; cbn; try reflexivity;
      (apply calls_while_then_quiet; [|reflexivity]);
      apply Hcalls; cbv [buttons_disabled]; cbn; now rewrite ?orb_true_r.
  - split; [|split].
    + enter_flow Heq. reflexivity.
    + enter_flow Heq. reflexivity.
    + intros H. unfold run in H. rewrite Heq in H. discriminate.
  - split; [|split].
    + enter_flow Heq. reflexivity.
    + enter_flow Heq. reflexivity.
    + intros H. unfold run in H. rewrite Heq in H. discriminate.
Qed.

(** X10.  A handler never changes what the user has typed (token address,
    receiver address, amount) nor the connected account, and it leaves the
    in-flight flag of the other flow alone. *)
Theorem flows_keep_the_form (rt : Runtime) (chain : Chain) (p : State) (w : World) :
  same_form (ui w) (final (handleMint rt chain p) w)
  /\ isClaiming (final (handleMint rt chain p) w) = isClaiming (ui w)
  /\ same_form (ui w) (final (handleClaim rt chain p) w)
  /\ isMinting (final (handleClaim rt chain p) w) = isMinting (ui w).
Proof.
  unfold same_form.
  destruct (validateInputs_cases rt p)
    as [(_ & _ & _ & Heth & Heq)|[(msg & _ & Heq)|(_ & _ & _ & _ & Heq)]];
    repeat split; enter_flow Heq; exec_flow';
    try (destruct Hkeep as ((? & ? & ? & ?) & (? & ? & _))); try assumption;
    reflexivity.
Qed.

(* ------------------------------------------------------------------ *)
(** ** The debounced fetch over any run of edits *)

Section DebounceRuns.

Import Debounce.

Variable checksumOk : string -> bool.

Local Abbreviation valid := (Debounce.valid checksumOk).
Local Abbreviation settled := (Debounce.settled checksumOk).
Local Abbreviation edit := (Debounce.edit checksumOk).
Local Abbreviation run_edits := (Debounce.run_edits checksumOk).
Local Abbreviation expected_fired_from := (Debounce.expected_fired_from checksumOk).
Local Abbreviation expected_resets_from := (Debounce.expected_resets_from checksumOk).

Lemma next_change_ge (current : string) (r : list (nat * string)) (T : nat) :
  forall prev, ordered_from prev r = true -> before T r = true -> prev <= T ->
               prev <= next_change current r T.
Proof.
  induction r as [|[t a] r IH]; intros prev Ho Hb HT; simpl in *; [exact HT|].
  apply andb_prop in Ho as [H1 Ho]. apply Nat.leb_le in H1.
  apply andb_prop in Hb as [Hb1 Hb]. apply Nat.leb_le in Hb1.
  destruct (String.eqb current a); [|exact H1].
  etransitivity; [exact H1|]. now apply IH.
Qed.

Lemma run_fires (r : list (nat * string)) (T : nat) :
  forall s t0 a0,
    settled s t0 a0 -> ordered_from (now s) r = true ->
    before T r = true -> now s <= T ->
    fired (advance T (run_edits r s))
    = (fired s
         ++ (if valid a0 && (now s <? t0 + delay)%nat
                && (t0 + delay <=? next_change a0 r T)%nat
             then [(t0 + delay, a0)] else [])
         ++ expected_fired_from a0 r T)%list.
Proof.
  induction r as [|[t1 a1] r IH]; intros s t0 a0 Hs Ho Hb HT.
  - cbn [Debounce.run_edits fold_left Debounce.expected_fired_from next_change].
    rewrite app_nil_r. now apply settled_advance.
  - simpl in Ho. apply andb_prop in Ho as [H1 Ho]. apply Nat.leb_le in H1.
    cbn [before forallb fst] in Hb. apply andb_prop in Hb as [Hb1 Hb].
    apply Nat.leb_le in Hb1.
    destruct (edit_settles checksumOk s t0 a0 t1 a1 Hs H1) as (Hs1 & Hn1 & Hf1 & _).
    change (run_edits ((t1, a1) :: r) s) with (run_edits r (edit s (t1, a1))).
    rewrite <- Hn1 in Ho.
    rewrite (IH _ _ a1 Hs1 Ho Hb) by (rewrite Hn1; exact Hb1).
    rewrite Hf1, Hn1. rewrite Hn1 in Ho.
    cbn [Debounce.expected_fired_from next_change].
    pose proof (next_change_ge a0 r T t1 Ho Hb Hb1) as Hge.
    destruct (String.eqb a0 a1) eqn:He.
    + apply String.eqb_eq in He. subst a1.
      rewrite <- app_assoc. f_equal. rewrite app_assoc. f_equal.
      destruct (valid a0); cbn [andb]; [|reflexivity].
      destruct (Nat.ltb_spec (now s) (t0 + delay)),
               (Nat.leb_spec (t0 + delay) t1),
               (Nat.ltb_spec t1 (t0 + delay)),
               (Nat.leb_spec (t0 + delay) (next_change a0 r T));
        cbn; try reflexivity; lia.
    + rewrite <- app_assoc. f_equal.
      assert (Hlt : (t1 <? t1 + delay)%nat = true)
        by (apply Nat.ltb_lt; unfold delay; lia).
      rewrite Hlt, andb_true_r. reflexivity.
Qed.

Lemma run_ui_events (r : list (nat * string)) :
  forall s t0 a0,
    settled s t0 a0 -> ordered_from (now s) r = true ->
    ui_events (run_edits r s) = (ui_events s ++ expected_resets_from a0 r)%list.
Proof.
  induction r as [|[t1 a1] r IH]; intros s t0 a0 Hs Ho.
  - simpl. now rewrite app_nil_r.
  - simpl in Ho. apply andb_prop in Ho as [H1 Ho]. apply Nat.leb_le in H1.
    destruct (edit_settles checksumOk s t0 a0 t1 a1 Hs H1) as (Hs1 & Hn1 & _ & Hu1).
    change (run_edits ((t1, a1) :: r) s) with (run_edits r (edit s (t1, a1))).
    rewrite <- Hn1 in Ho.
    rewrite (IH _ _ a1 Hs1 Ho), Hu1. cbn [Debounce.expected_resets_from].
    destruct (String.eqb a0 a1) eqn:He.
    + apply String.eqb_eq in He. subst a1. now rewrite app_nil_r.
    + now rewrite <- app_assoc.
Qed.

Lemma run_settled (es : list (nat * string)) :
  forall s t0 a0,
    settled s t0 a0 -> ordered_from (now s) es = true ->
    exists t a, settled (run_edits es s) t a.
Proof.
  induction es as [|[t1 a1] es IH]; intros s t0 a0 Hs Ho.
  - exists t0, a0. exact Hs.
  - simpl in Ho. apply andb_prop in Ho as [H1 Ho]. apply Nat.leb_le in H1.
    destruct (edit_settles checksumOk s t0 a0 t1 a1 Hs H1) as (Hs1 & Hn1 & _).
    change (run_edits ((t1, a1) :: es) s) with (run_edits es (edit s (t1, a1))).
    rewrite <- Hn1 in Ho. exact (IH _ _ a1 Hs1 Ho).
Qed.

End DebounceRuns.

(** X11.  The fetches that fire are read off the edits alone.  Over any
    run of edits in time order, watched up to a time [T] after the last
    of them, an edit that changes the address to a valid one leads to one
    fetch, 500 ms later and with its address, exactly when the address is
    not changed again within those 500 ms and [T] is not earlier.  Edits
    that set the address already in the field, and edits to an empty or
    invalid address, lead to none. *)
Theorem debounce_fires_after_quiet
  (checksumOk : string -> bool) (es : list (nat * string)) (T : nat) :
  Debounce.ordered es = true ->
  Debounce.before T es = true ->
  Debounce.fired (Debounce.advance T (Debounce.run_edits checksumOk es Debounce.init))
  = Debounce.expected_fired checksumOk es T.
Proof.
  intros Ho Hb.
  rewrite (run_fires checksumOk es T Debounce.init 0 EmptyString
             (settled_init checksumOk) Ho Hb (Nat.le_0_l _)).
  reflexivity.
Qed.

(** X12.  Over any run of edits in time order there is never more than
    one timer pending, whatever the spacing of the edits and the time
    that has passed since. *)
Theorem debounce_one_timer
  (checksumOk : string -> bool) (es : list (nat * string)) (T : nat) :
  Debounce.ordered es = true ->
  length (Debounce.pending (Debounce.run_edits checksumOk es Debounce.init)) <= 1
  /\ length (Debounce.pending
               (Debounce.advance T (Debounce.run_edits checksumOk es Debounce.init))) <= 1.
Proof.
  intros Ho.
  destruct (run_settled checksumOk es Debounce.init 0 EmptyString
              (settled_init checksumOk) Ho) as (t & a & Hs).
  pose proof (settled_tame _ _ _ _ Hs) as Ht.
  pose proof (tame_advance T _ Ht) as Ha.
  split; [destruct Ht as (_ & [->|(tm & -> & _)]) | destruct Ha as (_ & [->|(tm & -> & _)])];
    simpl; lia.
Qed.

(** X13.  Teardown cancels the timer: after the component is unmounted,
    at any time after a run of edits, no timer is pending and no fetch
    fires any more. *)
Theorem unmount_cancels_the_fetch
  (checksumOk : string -> bool) (es : list (nat * string)) (T0 T : nat) :
  Debounce.ordered es = true ->
  Debounce.pending
    (Debounce.unmount
       (Debounce.advance T0 (Debounce.run_edits checksumOk es Debounce.init))) = []
  /\ Debounce.fired
       (Debounce.advance T
          (Debounce.unmount
             (Debounce.advance T0 (Debounce.run_edits checksumOk es Debounce.init))))
     = Debounce.fired
         (Debounce.advance T0 (Debounce.run_edits checksumOk es Debounce.init)).
Proof.
  intros Ho.
  destruct (run_settled checksumOk es Debounce.init 0 EmptyString
              (settled_init checksumOk) Ho) as (t & a & Hs0).
  destruct (settled_advance checksumOk _ t a T0 Hs0) as (Hs & _).
  set (s := Debounce.advance T0 (Debounce.run_edits checksumOk es Debounce.init)) in *.
  assert (Hp : Debounce.pending (Debounce.unmount s) = []).
  { unfold Debounce.unmount, Debounce.cleanup.
    destruct (Debounce.has_cleanup s) eqn:Hc.
    - apply pending_clear_current. eapply settled_tame. exact Hs.
    - destruct Hs as (_ & _ & _ & Hv & Hp). rewrite Hc in Hv. rewrite <- Hv in Hp.
      exact Hp. }
  split; [exact Hp|].
  cbn [Debounce.advance Debounce.fired]. rewrite Hp. cbn [filter map].
  rewrite app_nil_r.
  destruct (cleanup_frame s) as (_ & _ & Hf & _).
  exact Hf.
Qed.

(** X14.  The effect itself resets the balance only for an empty or
    invalid address: over any run of edits in time order it calls
    [setBalance(null)] and [setIsLoadingBalance(false)] once, at the time
    of the edit, for each edit that changes the address to such a one, and
    touches no state for a valid address or an unchanged one. *)
Theorem effect_resets_on_invalid_only
  (checksumOk : string -> bool) (es : list (nat * string)) :
  Debounce.ordered es = true ->
  Debounce.ui_events (Debounce.run_edits checksumOk es Debounce.init)
  = Debounce.expected_resets checksumOk es.
Proof.
  intros Ho.
  rewrite (run_ui_events checksumOk es Debounce.init 0 EmptyString
             (settled_init checksumOk) Ho).
  reflexivity.
Qed.

(* ------------------------------------------------------------------ *)
(** ** The page after a fetch *)

(** The three fields [fetchBalance] writes, by the answers of the chain. *)
Lemma fetchBalance_result (rt : Runtime) (chain : Chain) (a : string) (w : World) :
  isLoadingBalance (final (fetchBalance rt chain a) w) = false
  /\ balance (final (fetchBalance rt chain a) w)
     = (if negb (isAddress rt a) then None
        else if String.eqb a Viem.zeroAddress
             then getBalance chain (calls w) faucetAddress
             else readContract chain (S (calls w)) (tokenBalanceRequest a))
  /\ tokenDecimals (final (fetchBalance rt chain a) w)
     = (if negb (isAddress rt a) then tokenDecimals (ui w)
        else if String.eqb a Viem.zeroAddress
             then match getBalance chain (calls w) faucetAddress with
                  | Some _ => 18%nat
                  | None => tokenDecimals (ui w)
                  end
             else match readContract chain (calls w) (decimalsRequest a) with
                  | Some d => N.to_nat d
                  | None => 18%nat
                  end).
Proof.
  destruct (isAddress rt a) eqn:Ha; cbn [negb].
  - unfold tokenBalanceRequest.
    destruct (String.eqb_spec a Viem.zeroAddress) as [->|Hne].
    + exec_native; repeat split.
    + exec_token Ha Hne; repeat split.
  - exec_invalid Ha. repeat split.
Qed.

(** X15.  The balance line after [fetchBalance] has run for the token
    address of the state: nothing for an empty or invalid address; for the
    zero address the native balance of the faucet formatted with 18
    decimals; for a token the faucet's holdings formatted with the
    decimals resolved in the same fetch (18 when that read failed); the
    unreadable marker when the balance query failed.  The line never
    stays on loading. *)
Theorem balanceDisplay_after_fetch
  (rt : Runtime) (chain : Chain) (formatUnits : N -> nat -> string)
  (a : string) (w : World) :
  tokenAddress (ui w) = a ->
  balanceDisplay rt formatUnits (final (fetchBalance rt chain a) w)
  = if negb (isAddress rt a) then NoBalanceLine
    else if String.eqb a Viem.zeroAddress then
      match getBalance chain (calls w) faucetAddress with
      | Some v => BalanceValue "ETH余额" (formatUnits v 18%nat)
      | None => BalanceUnreadable
      end
    else
      match readContract chain (S (calls w)) (tokenBalanceRequest a) with
      | Some v =>
          BalanceValue "代币余额"
            (formatUnits v
               match readContract chain (calls w) (decimalsRequest a) with
               | Some d => N.to_nat d
               | None => 18%nat
               end)
      | None => BalanceUnreadable
      end.
Proof.
  intros Hw.
  destruct (fetchBalance_keeps rt chain a w) as ((_ & Hk & _) & _).
  destruct (fetchBalance_result rt chain a w) as (Hl & Hb & Hd).
  rewrite Hw in Hk. unfold balanceDisplay.
  rewrite zero_flag_is_eqb, Hk, Hl, Hb, Hd.
  destruct (isAddress rt a) eqn:Ha; cbn [negb].
  - rewrite (isAddress_nonempty _ _ Ha). cbn [andb].
    destruct (String.eqb a Viem.zeroAddress).
    + destruct (getBalance chain (calls w) faucetAddress); reflexivity.
    + reflexivity.
  - rewrite andb_false_r. reflexivity.
Qed.

Lemma State_ext (s s' : State) :
  same_form s s' -> same_flow s s' ->
  balance s' = balance s -> isLoadingBalance s' = isLoadingBalance s ->
  tokenDecimals s' = tokenDecimals s -> s' = s.
Proof.
  intros (H1 & H2 & H3 & H4) (H5 & H6 & H7 & H8 & H9 & H10) H11 H12 H13.
  destruct s, s'; simpl in *; subst; reflexivity.
Qed.

(** X16.  [fetchBalance] is idempotent: on a chain whose answers do not
    depend on when they are asked, fetching the balance of the same
    address a second time, at any later point, leaves the state exactly
    as the first fetch left it. *)
Theorem fetchBalance_idempotent
  (rt : Runtime) (chain : Chain) (a : string) (w : World) (later : nat) :
  (forall n m r, readContract chain n r = readContract chain m r) ->
  (forall n m b, getBalance chain n b = getBalance chain m b) ->
  final (fetchBalance rt chain a)
    (mkWorld (final (fetchBalance rt chain a) w) later)
  = final (fetchBalance rt chain a) w.
Proof.
  intros Hr Hg.
  set (s1 := final (fetchBalance rt chain a) w).
  destruct (fetchBalance_keeps rt chain a (mkWorld s1 later)) as (Hf2 & Hz2).
  destruct (fetchBalance_result rt chain a (mkWorld s1 later)) as (Hl2 & Hb2 & Hd2).
  destruct (fetchBalance_result rt chain a w) as (Hl1 & Hb1 & Hd1).
  fold s1 in Hl1, Hb1, Hd1. cbn [ui calls] in *.
  apply State_ext; try assumption.
  - rewrite Hb2, Hb1.
    rewrite (Hr (S later) (S (calls w))), (Hg later (calls w)). reflexivity.
  - congruence.
  - rewrite Hd2. rewrite (Hr later (calls w)), (Hg later (calls w)).
    rewrite Hd1.
    destruct (negb (isAddress rt a)); [reflexivity|].
    destruct (String.eqb a Viem.zeroAddress); [|reflexivity].
    destruct (getBalance chain (calls w) faucetAddress); reflexivity.
Qed.

(** X17.  [fillConnectedAddress] copies the connected account into the
    receiver field and changes nothing else; without an account it
    changes nothing; doing it twice is the same as doing it once.  When
    the account is a valid address, validation afterwards does not stop
    at the receiver. *)
Theorem fillConnectedAddress_fills_receiver (rt : Runtime) (s : State) (w : World) :
  fillConnectedAddress (fillConnectedAddress s) = fillConnectedAddress s
  /\ (connectedAddress s = None -> fillConnectedAddress s = s)
  /\ (forall acct, connectedAddress s = Some acct -> Js.truthy acct = true ->
        fillConnectedAddress s = with_receiverAddress acct s
        /\ (isAddress rt acct = true ->
            ~ In (SetError "请输入有效的接收地址")
                (trace (validateInputs rt (fillConnectedAddress s)) w))).
Proof.
  split; [|split].
  - destruct (connectedAddress s) as [acct|] eqn:Hc.
    + destruct (Js.truthy acct) eqn:Ht.
      * assert (E : fillConnectedAddress s = with_receiverAddress acct s)
          by (unfold fillConnectedAddress; now rewrite Hc, Ht).
        rewrite E. unfold fillConnectedAddress.
        cbn [connectedAddress with_receiverAddress]. now rewrite Hc, Ht.
      * assert (E : fillConnectedAddress s = s)
          by (unfold fillConnectedAddress; now rewrite Hc, Ht).
        now rewrite !E.
    + assert (E : fillConnectedAddress s = s)
        by (unfold fillConnectedAddress; now rewrite Hc).
      now rewrite !E.
  - intros Hc. unfold fillConnectedAddress. now rewrite Hc.
  - intros acct Hc Ht. unfold fillConnectedAddress. rewrite Hc, Ht.
    split; [reflexivity|]. intros Ha.
    unfold trace. rewrite validateInputs_outcome.
    cbn [tokenAddress receiverAddress amount with_receiverAddress].
    rewrite Ha. cbv zeta. cbn [negb].
    destruct (negb (isAddress rt (tokenAddress s)));
      [|destruct (amount_rejected rt (amount s))];
      rewrite ?truthy_cons, ?truthy_empty; cbn [negb andb];
      try destruct (ethereum rt); cbn;
      intros H; repeat destruct H as [H|H]; try discriminate; exact H.
Qed.

(* ------------------------------------------------------------------ *)
(** ** The further statements at concrete inputs *)

Lemma formatTxHash_keeps_both_ends_witness :
  formatTxHash (Some "0xabc") = "0xabc"
  /\ exists first middle last,
       Examples.long_hash = first ++ middle ++ last
       /\ String.length first = 6 /\ String.length last = 4
       /\ formatTxHash (Some Examples.long_hash) = first ++ "..." ++ last.
Proof.
  split.
  - destruct (formatTxHash_keeps_both_ends "0xabc") as (_ & _ & H & _).
    exact (H ltac:(vm_compute; lia)).
  - destruct (formatTxHash_keeps_both_ends Examples.long_hash) as (_ & _ & _ & H).
    exact (H ltac:(vm_compute; lia)).
Defined.

Lemma confirmed_submission_refreshes_once_witness :
  txHash (final (handleMint Reference.runtime Examples.confirming Examples.token_request)
            (Examples.start Examples.token_request)) = Examples.long_hash
  /\ txHash (final (handleClaim Reference.runtime Examples.confirming
                      Examples.native_request)
               (Examples.start Examples.native_request)) = Examples.long_hash.
Proof.
  split.
  - destruct (confirmed_submission_refreshes_once Reference.runtime Examples.confirming
                Examples.token_request (Examples.start Examples.token_request)
                2500000%Z Examples.long_hash eq_refl eq_refl eq_refl eq_refl)
      as (H & _).
    exact (proj1 (proj2 (proj2 (H eq_refl)))).
  - destruct (confirmed_submission_refreshes_once Reference.runtime Examples.confirming
                Examples.native_request (Examples.start Examples.native_request)
                1500000000000000000%Z Examples.long_hash
                eq_refl eq_refl eq_refl eq_refl)
      as (_ & H).
    exact (proj1 (proj2 (proj2 (H eq_refl)))).
Defined.

Lemma preview_matches_submission_witness :
  (amountPreview Reference.runtime Examples.token_request = Some "2500000"
   /\ submitted (trace (handleMint Reference.runtime Examples.healthy
                          Examples.token_request)
                   (Examples.start Examples.token_request))
      = Some (mintRequest Examples.token_request 2500000%Z))
  /\ (amountPreview Examples.scientific Examples.bad_amount = Some "无效数量"
      /\ net_calls (trace (handleMint Examples.scientific Examples.healthy
                             Examples.bad_amount)
                      (Examples.start Examples.bad_amount)) = []).
Proof.
  split.
  - pose proof (preview_matches_submission Reference.runtime Examples.healthy
                  Examples.token_request (Examples.start Examples.token_request)
                  eq_refl) as H.
    change (parseUnits Reference.runtime (amount Examples.token_request)
              (if isZeroAddress Reference.runtime Examples.token_request
               then 18%nat else tokenDecimals Examples.token_request))
      with (Some 2500000%Z) in H.
    exact (conj (proj1 H) (proj1 (proj2 H))).
  - pose proof (preview_matches_submission Examples.scientific Examples.healthy
                  Examples.bad_amount (Examples.start Examples.bad_amount)
                  eq_refl) as H.
    change (parseUnits Examples.scientific (amount Examples.bad_amount)
              (if isZeroAddress Examples.scientific Examples.bad_amount
               then 18%nat else tokenDecimals Examples.bad_amount))
      with (@None Z) in H.
    exact (conj (proj1 H) (proj1 (proj2 H))).
Defined.

Lemma flows_hold_the_buttons_witness :
  isMinting (final (handleMint Reference.runtime Examples.confirming
                      Examples.token_request)
               (Examples.start Examples.token_request)) = false
  /\ isClaiming (final (handleClaim Reference.runtime Examples.confirming
                          Examples.token_request)
                   (Examples.start Examples.token_request)) = false.
Proof.
  destruct (flows_hold_the_buttons Reference.runtime Examples.confirming
              Examples.token_request (Examples.start Examples.token_request))
    as (_ & _ & _ & H).
  exact (H eq_refl).
Defined.

Lemma debounce_fires_after_quiet_witness :
  Debounce.fired
    (Debounce.advance 5000
       (Debounce.run_edits Reference.checksumOk Examples.slow_edits Debounce.init))
  = [(600, Examples.account); (1500, Examples.token); (2100, Examples.receiver)].
Proof.
  exact (debounce_fires_after_quiet Reference.checksumOk Examples.slow_edits 5000
           eq_refl eq_refl).
Defined.

Lemma debounce_one_timer_witness :
  length (Debounce.pending
            (Debounce.advance 1200
               (Debounce.run_edits Reference.checksumOk Examples.slow_edits
                  Debounce.init))) <= 1.
Proof.
  exact (proj2 (debounce_one_timer Reference.checksumOk Examples.slow_edits 1200
                  eq_refl)).
Defined.

Lemma unmount_cancels_the_fetch_witness :
  Debounce.fired
    (Debounce.advance 5000
       (Debounce.unmount
          (Debounce.advance 1700
             (Debounce.run_edits Reference.checksumOk Examples.slow_edits
                Debounce.init))))
  = Debounce.fired
      (Debounce.advance 1700
         (Debounce.run_edits Reference.checksumOk Examples.slow_edits Debounce.init)).
Proof.
  exact (proj2 (unmount_cancels_the_fetch Reference.checksumOk Examples.slow_edits
                  1700 5000 eq_refl)).
Defined.

Lemma effect_resets_on_invalid_only_witness :
  Debounce.ui_events
    (Debounce.run_edits Reference.checksumOk Examples.slow_edits Debounce.init)
  = [(900, SetBalance None); (900, SetIsLoadingBalance false)].
Proof.
  exact (effect_resets_on_invalid_only Reference.checksumOk Examples.slow_edits
           eq_refl).
Defined.

Lemma balanceDisplay_after_fetch_witness :
  balanceDisplay Reference.runtime Examples.formatUnits
    (final (fetchBalance Reference.runtime Examples.healthy Examples.token)
       Examples.watching)
  = BalanceValue "代币余额" "1000000e-6".
Proof.
  exact (balanceDisplay_after_fetch Reference.runtime Examples.healthy
           Examples.formatUnits Examples.token Examples.watching eq_refl).
Defined.

Lemma fetchBalance_idempotent_witness :
  final (fetchBalance Reference.runtime Examples.healthy Examples.token)
    (mkWorld (final (fetchBalance Reference.runtime Examples.healthy Examples.token)
                Examples.watching) 7)
  = final (fetchBalance Reference.runtime Examples.healthy Examples.token)
      Examples.watching.
Proof.
  exact (fetchBalance_idempotent Reference.runtime Examples.healthy Examples.token
           Examples.watching 7 (fun _ _ _ => eq_refl) (fun _ _ _ => eq_refl)).
Defined.

Lemma fillConnectedAddress_fills_receiver_witness :
  fillConnectedAddress (Examples.form None Examples.token "1" 18)
  = Examples.form None Examples.token "1" 18
  /\ receiverAddress
       (fillConnectedAddress
          (App.mkState (Some Examples.account) Examples.token "0x12" "1" false false
             EmptyString EmptyString EmptyString EmptyString None false 18))
     = Examples.account.
Proof.
  split.
  - destruct (fillConnectedAddress_fills_receiver Reference.runtime
                (Examples.form None Examples.token "1" 18)
                (Examples.start Examples.no_wallet)) as (_ & H & _).
    exact (H eq_refl).
  - destruct (fillConnectedAddress_fills_receiver Reference.runtime
                (App.mkState (Some Examples.account) Examples.token "0x12" "1"
                   false false EmptyString EmptyString EmptyString EmptyString
                   None false 18)
                (Examples.start Examples.no_wallet)) as (_ & _ & H).
    destruct (H Examples.account eq_refl eq_refl) as (E & _).
    rewrite E. reflexivity.
Defined.
